(** * CameraView: a camera-capture overlay

    A shallow embedding of [src/components/CameraView.tsx].  The React
    component is modelled as a transition system: the five [useState] cells
    form the component state, the two refs and the retained effect cleanup
    form the rest of the store, and every call the component makes on the
    browser or on its host (track stops, stream requests, callbacks) is
    appended to a chronological call log.  The browser's canvas, video and
    media-stream objects are external collaborators; the part of their
    behaviour the component relies on is modelled in [Module Canvas] after
    the HTML standard. *)

From Stdlib Require Import List String Ascii ZArith QArith Bool Arith Lia.
Import ListNotations.

Local Open Scope string_scope.
Local Open Scope list_scope.
Local Open Scope nat_scope.

(** ** Browser objects *)

(** A media stream track, known by its identity. *)
Definition Track := nat.

Record MediaStream := {
  streamId : nat;
  getTracks : list Track
}.

Record MediaDeviceInfo := {
  deviceId : string;
  kind : string
}.

(** The value a rejected promise carries.  Any JavaScript value can be
    thrown; the component only looks at [err instanceof Error] and, when that
    holds, at [err.name]. *)
Record Rejection := {
  instanceofError : bool;
  name : string
}.

Inductive FacingMode := user | environment.

Record Constraints := {
  c_facingMode : FacingMode;
  c_widthIdeal : nat;
  c_heightIdeal : nat
}.

(** A pixel is a packed colour; [transparent] is transparent black. *)
Definition Pixel := Z.
Definition transparent : Pixel := 0%Z.

(** A bitmap is a list of rows, top to bottom, each row left to right. *)
Definition Bitmap := list (list Pixel).

Definition sample (img : Bitmap) (col row : nat) : Pixel :=
  nth col (nth row img []) transparent.

Definition blank (w h : nat) : Bitmap := repeat (repeat transparent w) h.

(** Horizontal mirror of a bitmap: every row reversed. *)
Definition mirror (img : Bitmap) : Bitmap := map (@rev Pixel) img.

Record HTMLVideoElement := {
  srcObject : option MediaStream;
  videoWidth : nat;
  videoHeight : nat;
  currentFrame : Bitmap
}.

(** A video element as React creates it: no source, no intrinsic size. *)
Definition freshVideo : HTMLVideoElement :=
  {| srcObject := None; videoWidth := 0; videoHeight := 0; currentFrame := [] |}.

Module Canvas.

(** The current transformation matrix of a 2D context: a point [(x, y)] of
    user space is drawn at [(a x + c y + e, b x + d y + f)]. *)
Record Matrix := { a : Z; b : Z; c : Z; d : Z; e : Z; f : Z }.

Definition identity : Matrix :=
  {| a := 1; b := 0; c := 0; d := 1; e := 0; f := 0 |}%Z.

Record HTMLCanvasElement := {
  width : nat;
  height : nat;
  context2d : bool;      (* whether [getContext('2d')] yields a context *)
  ctm : Matrix;
  bitmap : Bitmap
}.

(** A canvas element as created: 300 by 150, cleared. *)
Definition fresh (has2d : bool) : HTMLCanvasElement :=
  {| width := 300; height := 150; context2d := has2d;
     ctm := identity; bitmap := blank 300 150 |}.

(** Assigning [canvas.width] or [canvas.height] resizes and clears the
    bitmap and resets the context to its default state, also when the
    value does not change. *)
Definition setWidth (w : nat) (cv : HTMLCanvasElement) : HTMLCanvasElement :=
  {| width := w; height := height cv; context2d := context2d cv;
     ctm := identity; bitmap := blank w (height cv) |}.

Definition setHeight (h : nat) (cv : HTMLCanvasElement) : HTMLCanvasElement :=
  {| width := width cv; height := h; context2d := context2d cv;
     ctm := identity; bitmap := blank (width cv) h |}.

Definition getContext (cv : HTMLCanvasElement) : bool := context2d cv.

Definition withCtm (m : Matrix) (cv : HTMLCanvasElement) : HTMLCanvasElement :=
  {| width := width cv; height := height cv; context2d := context2d cv;
     ctm := m; bitmap := bitmap cv |}.

(** [context.translate] and [context.scale] multiply the current matrix on
    the right. *)
Definition translateM (tx ty : Z) (m : Matrix) : Matrix :=
  {| a := a m; b := b m; c := c m; d := d m;
     e := a m * tx + c m * ty + e m;
     f := b m * tx + d m * ty + f m |}%Z.

Definition scaleM (sx sy : Z) (m : Matrix) : Matrix :=
  {| a := a m * sx; b := b m * sx; c := c m * sy; d := d m * sy;
     e := e m; f := f m |}%Z.

Definition translate (tx ty : Z) (cv : HTMLCanvasElement) : HTMLCanvasElement :=
  withCtm (translateM tx ty (ctm cv)) cv.

Definition scale (sx sy : Z) (cv : HTMLCanvasElement) : HTMLCanvasElement :=
  withCtm (scaleM sx sy (ctm cv)) cv.

(** The colour [drawImage] leaves at device pixel [(X, Y)].  The centre of
    the pixel is taken back to user space through the inverse matrix
    (coordinates doubled, so that centres stay integral); when it falls in
    the destination rectangle, the frame is sampled at the nearest source
    pixel, otherwise the old colour stays.  A singular matrix draws
    nothing. *)
Definition drawPixel (m : Matrix) (v : HTMLVideoElement)
    (dx dy dw dh : Z) (old : Pixel) (X Y : nat) : Pixel :=
  let det := (a m * d m - b m * c m)%Z in
  if (det =? 0)%Z then old else
  let px := (2 * Z.of_nat X + 1 - 2 * e m)%Z in
  let py := (2 * Z.of_nat Y + 1 - 2 * f m)%Z in
  let ux := ((d m * px - c m * py) / (2 * det) - dx)%Z in
  let uy := ((a m * py - b m * px) / (2 * det) - dy)%Z in
  if ((0 <=? ux) && (ux <? dw) && (0 <=? uy) && (uy <? dh))%Z then
    sample (currentFrame v)
      (Z.to_nat ((2 * ux + 1) * Z.of_nat (videoWidth v) / (2 * dw)))
      (Z.to_nat ((2 * uy + 1) * Z.of_nat (videoHeight v) / (2 * dh)))
  else old.

(** [context.drawImage(video, dx, dy, dw, dh)].  A video without a frame
    (no intrinsic size) is not drawn. *)
Definition drawImage (v : HTMLVideoElement) (dx dy dw dh : Z)
    (cv : HTMLCanvasElement) : HTMLCanvasElement :=
  if (videoWidth v =? 0) || (videoHeight v =? 0) then cv else
  {| width := width cv; height := height cv; context2d := context2d cv;
     ctm := ctm cv;
     bitmap :=
       map (fun Y =>
              map (fun X =>
                     drawPixel (ctm cv) v dx dy dw dh
                               (sample (bitmap cv) X Y) X Y)
                  (seq 0 (width cv)))
           (seq 0 (height cv)) |}.

(** [canvas.toDataURL(type, quality)].  A canvas without pixels yields
    ["data:,"]; otherwise the bitmap is serialised by the browser's encoder
    for the requested type and quality and wrapped in a data URL.  The
    encoder itself is a parameter. *)
Definition toDataURL (encodeImage : string -> Q -> Bitmap -> string)
    (type : string) (quality : Q) (cv : HTMLCanvasElement) : string :=
  if (width cv =? 0) || (height cv =? 0) then "data:,"
  else ("data:" ++ type ++ ";base64," ++ encodeImage type quality (bitmap cv))%string.

End Canvas.

Import Canvas.

(** ** The component *)

(** The five [useState] cells. *)
Record State := {
  stream : option MediaStream;
  capturedImage : option string;
  facingMode : FacingMode;
  error : option string;
  hasMultipleCameras : bool
}.

(** Calls the component makes on the browser and on its host, in the order
    they happen. *)
Inductive Call :=
| EnumerateDevices
| GetUserMedia (constraints : Constraints)
| TrackStop (track : Track)
| ConsoleError
| ToDataURL (result : string)
| OnPhotoTaken (imageDataUrl : string)
| OnClose.

(** The store: component state, the two refs, the [stream] captured by the
    cleanup function the facing-mode effect returned last, the stream
    requests and the device query still in flight, and the call log. *)
Record World := {
  state : State;
  videoRef : option HTMLVideoElement;
  canvasRef : option HTMLCanvasElement;
  cleanupStream : option MediaStream;
  pending : list Constraints;
  enumerating : bool;
  calls : list Call
}.

(** A string-or-null value used as a condition: [null] and the empty string
    are falsy. *)
Definition truthy (v : option string) : bool :=
  match v with
  | Some s => negb (String.eqb s "")
  | None => false
  end.

(** The string of a string-or-null value that passed a truthiness test. *)
Definition text (v : option string) : string :=
  match v with
  | Some s => s
  | None => ""
  end.

Definition facingMode_eqb (m1 m2 : FacingMode) : bool :=
  match m1, m2 with
  | user, user | environment, environment => true
  | _, _ => false
  end.

(** *** Rendering *)

Inductive Panel :=
| ErrorPanel (message : string)
| CapturedPhoto (src : string)
| LiveVideo.

Inductive Button :=
| GoBackButton
| RetakeButton
| UsePhotoButton
| ShutterButton
| SwitchCameraButton
| CloseButton.

(** What a button's [onClick] is bound to. *)
Inductive Handler :=
| HClose
| HRetake
| HConfirm
| HTakePhoto
| HSwitchCamera.

Record View := {
  panel : Panel;
  controls : list (Button * Handler)
}.

(** The JSX of the component: the panel (lines 121-133), the button row
    (lines 138-170) and the close button (lines 173-179). *)
Definition render (s : State) : View :=
  {| panel :=
       if truthy (error s) then ErrorPanel (text (error s))
       else if truthy (capturedImage s) then CapturedPhoto (text (capturedImage s))
       else LiveVideo;
     controls :=
       (if truthy (error s) then [(GoBackButton, HClose)]
        else if truthy (capturedImage s)
             then [(RetakeButton, HRetake); (UsePhotoButton, HConfirm)]
             else (ShutterButton, HTakePhoto)
                  :: (if hasMultipleCameras s
                      then [(SwitchCameraButton, HSwitchCamera)] else []))
       ++ (if negb (truthy (capturedImage s)) && negb (truthy (error s))
           then [(CloseButton, HClose)] else []) |}.

Definition button_eqb (b1 b2 : Button) : bool :=
  match b1, b2 with
  | GoBackButton, GoBackButton | RetakeButton, RetakeButton
  | UsePhotoButton, UsePhotoButton | ShutterButton, ShutterButton
  | SwitchCameraButton, SwitchCameraButton | CloseButton, CloseButton => true
  | _, _ => false
  end.

(** The handler of a button of the view, when the view has the button. *)
Fixpoint onClick (b : Button) (cs : list (Button * Handler)) : option Handler :=
  match cs with
  | [] => None
  | (b', h) :: rest => if button_eqb b b' then Some h else onClick b rest
  end.

(** The three view states of the component, by what the panel shows. *)
Inductive ViewState := Live | Captured | Error.

Definition viewState (s : State) : ViewState :=
  match panel (render s) with
  | ErrorPanel _ => Error
  | CapturedPhoto _ => Captured
  | LiveVideo => Live
  end.

(** *** Store updates *)

Definition setStream (v : option MediaStream) (s : State) : State :=
  {| stream := v; capturedImage := capturedImage s; facingMode := facingMode s;
     error := error s; hasMultipleCameras := hasMultipleCameras s |}.

Definition setCapturedImage (v : option string) (s : State) : State :=
  {| stream := stream s; capturedImage := v; facingMode := facingMode s;
     error := error s; hasMultipleCameras := hasMultipleCameras s |}.

Definition setFacingMode (upd : FacingMode -> FacingMode) (s : State) : State :=
  {| stream := stream s; capturedImage := capturedImage s;
     facingMode := upd (facingMode s);
     error := error s; hasMultipleCameras := hasMultipleCameras s |}.

Definition setError (v : option string) (s : State) : State :=
  {| stream := stream s; capturedImage := capturedImage s; facingMode := facingMode s;
     error := v; hasMultipleCameras := hasMultipleCameras s |}.

Definition setHasMultipleCameras (v : bool) (s : State) : State :=
  {| stream := stream s; capturedImage := capturedImage s; facingMode := facingMode s;
     error := error s; hasMultipleCameras := v |}.

Definition call (cs : list Call) (w : World) : World :=
  {| state := state w; videoRef := videoRef w; canvasRef := canvasRef w;
     cleanupStream := cleanupStream w; pending := pending w;
     enumerating := enumerating w; calls := calls w ++ cs |}.

Definition withCanvas (cv : HTMLCanvasElement) (w : World) : World :=
  {| state := state w; videoRef := videoRef w; canvasRef := Some cv;
     cleanupStream := cleanupStream w; pending := pending w;
     enumerating := enumerating w; calls := calls w |}.

Definition withVideo (v : option HTMLVideoElement) (w : World) : World :=
  {| state := state w; videoRef := v; canvasRef := canvasRef w;
     cleanupStream := cleanupStream w; pending := pending w;
     enumerating := enumerating w; calls := calls w |}.

Definition withPending (p : list Constraints) (w : World) : World :=
  {| state := state w; videoRef := videoRef w; canvasRef := canvasRef w;
     cleanupStream := cleanupStream w; pending := p;
     enumerating := enumerating w; calls := calls w |}.

Definition withEnumerating (v : bool) (w : World) : World :=
  {| state := state w; videoRef := videoRef w; canvasRef := canvasRef w;
     cleanupStream := cleanupStream w; pending := pending w;
     enumerating := v; calls := calls w |}.

(** [stream.getTracks().forEach(track => track.stop())], guarded by
    [if (stream)]. *)
Definition stopTracks (s : option MediaStream) : list Call :=
  match s with
  | Some m => map TrackStop (getTracks m)
  | None => []
  end.

(** The body of the facing-mode effect (lines 35-74), run with the state of
    the render that scheduled it: stop the tracks of that render's [stream],
    request a new stream, and keep a cleanup that closes over the same
    [stream]. *)
Definition cameraEffect (w : World) : World :=
  let constraints :=
    {| c_facingMode := facingMode (state w);
       c_widthIdeal := 1280; c_heightIdeal := 720 |} in
  {| state := state w; videoRef := videoRef w; canvasRef := canvasRef w;
     cleanupStream := stream (state w);
     pending := pending w ++ [constraints];
     enumerating := enumerating w;
     calls := calls w ++ stopTracks (stream (state w)) ++ [GetUserMedia constraints] |}.

(** The cleanup the effect returned at its last run (lines 69-73). *)
Definition cameraCleanup (w : World) : World :=
  call (stopTracks (cleanupStream w)) w.

(** The video element after a render: the [<video>] node exists exactly while
    the panel is the live video; it is kept from one live render to the next
    and created anew, without a source, when the panel returns to live. *)
Definition reconcileVideo (s : State) (v : option HTMLVideoElement)
  : option HTMLVideoElement :=
  match panel (render s) with
  | LiveVideo => match v with
                 | Some el => Some el
                 | None => Some freshVideo
                 end
  | _ => None
  end.

(** A state update followed by its render: the refs follow the new view, and
    the facing-mode effect is run again (old cleanup first) when its
    dependency [facingMode] changed. *)
Definition commit (s' : State) (w : World) : World :=
  let w1 :=
    {| state := s'; videoRef := reconcileVideo s' (videoRef w);
       canvasRef := canvasRef w; cleanupStream := cleanupStream w;
       pending := pending w; enumerating := enumerating w; calls := calls w |} in
  if facingMode_eqb (facingMode (state w)) (facingMode s') then w1
  else cameraEffect (cameraCleanup w1).

(** Mounting: initial state, first render, then both effects. *)
Definition initialState : State :=
  {| stream := None; capturedImage := None; facingMode := user;
     error := None; hasMultipleCameras := false |}.

Definition mount (has2d : bool) : World :=
  cameraEffect
    {| state := initialState;
       videoRef := reconcileVideo initialState None;
       canvasRef := Some (Canvas.fresh has2d);
       cleanupStream := None;
       pending := [];
       enumerating := true;
       calls := [EnumerateDevices] |}.

(** Unmounting runs the retained cleanup and detaches the refs. *)
Definition unmount (w : World) : World :=
  let w1 := cameraCleanup w in
  {| state := state w1; videoRef := None; canvasRef := None;
     cleanupStream := cleanupStream w1; pending := pending w1;
     enumerating := enumerating w1; calls := calls w1 |}.

(** *** Handlers *)

Definition permissionDeniedMessage : string :=
  "Camera permission denied. Please enable it in your browser settings and refresh.".

Definition cameraUnavailableMessage : string :=
  "Could not access camera. Please make sure it's not being used by another app.".

(** [el.srcObject = s] (line 53).  Assigning a source makes the element load
    anew: it has no intrinsic size and no frame until the new stream
    delivers one. *)
Definition withSrcObject (s : MediaStream) (el : HTMLVideoElement) : HTMLVideoElement :=
  {| srcObject := Some s; videoWidth := 0; videoHeight := 0; currentFrame := [] |}.

(** What can happen to the mounted component: a click, the settling of the
    device query or of a stream request, or the browser giving the video
    element a frame of its source. *)
Inductive Event :=
| Click (button : Button)
| DevicesEnumerated (devices : list MediaDeviceInfo)
| StreamGranted (request : nat) (s : MediaStream)
| StreamRejected (request : nat) (err : Rejection)
| VideoFrame (w h : nat) (frame : Bitmap).

Section Handlers.

(** The browser's image encoder, used by [canvas.toDataURL]. *)
Variable encodeImage : string -> Q -> Bitmap -> string.

(** Lines 76-97. *)
Definition handleTakePhoto (w : World) : World :=
  match videoRef w, canvasRef w with
  | Some video, Some canvas =>
      let canvas := setHeight (videoHeight video) (setWidth (videoWidth video) canvas) in
      if getContext canvas then
        let canvas :=
          match facingMode (state w) with
          | user => scale (-1) 1 (translate (Z.of_nat (width canvas)) 0 canvas)
          | environment => canvas
          end in
        let canvas :=
          drawImage video 0 0 (Z.of_nat (width canvas)) (Z.of_nat (height canvas)) canvas in
        let dataUrl := toDataURL encodeImage "image/jpeg" (9 # 10) canvas in
        commit (setCapturedImage (Some dataUrl) (state w))
               (call [ToDataURL dataUrl] (withCanvas canvas w))
      else withCanvas canvas w
  | _, _ => w
  end.

(** Lines 99-103. *)
Definition handleConfirm (w : World) : World :=
  if truthy (capturedImage (state w))
  then call [OnPhotoTaken (text (capturedImage (state w)))] w
  else w.

(** Lines 105-107. *)
Definition handleRetake (w : World) : World :=
  commit (setCapturedImage None (state w)) w.

(** Lines 109-111. *)
Definition handleSwitchCamera (w : World) : World :=
  commit (setFacingMode (fun prev => match prev with
                                     | user => environment
                                     | environment => user
                                     end) (state w)) w.

(** The [onClose] prop, called by the close and go-back buttons. *)
Definition onClose (w : World) : World := call [OnClose] w.

Definition handle (h : Handler) (w : World) : World :=
  match h with
  | HClose => onClose w
  | HRetake => handleRetake w
  | HConfirm => handleConfirm w
  | HTakePhoto => handleTakePhoto w
  | HSwitchCamera => handleSwitchCamera w
  end.

(** The [then] of [enumerateDevices] (lines 27-32). *)
Definition onDevices (devices : list MediaDeviceInfo) (w : World) : World :=
  let videoInputs :=
    filter (fun device => String.eqb (kind device) "videoinput") devices in
  if 1 <? List.length videoInputs
  then commit (setHasMultipleCameras true (state w)) w
  else w.

(** The [then] of [getUserMedia] (lines 50-56). *)
Definition onStream (s : MediaStream) (w : World) : World :=
  let w1 := commit (setStream (Some s) (state w)) w in
  let w2 :=
    match videoRef w1 with
    | Some el => withVideo (Some (withSrcObject s el)) w1
    | None => w1
    end in
  commit (setError None (state w2)) w2.

(** The [catch] of [getUserMedia] (lines 57-66). *)
Definition onStreamError (err : Rejection) (w : World) : World :=
  let w1 := call [ConsoleError] w in
  if instanceofError err then
    if String.eqb (name err) "NotAllowedError"
    then commit (setError (Some permissionDeniedMessage) (state w1)) w1
    else commit (setError (Some cameraUnavailableMessage) (state w1)) w1
  else w1.

(** *** Events *)

Definition settle (request : nat) (w : World) : World :=
  withPending (firstn request (pending w) ++ skipn (S request) (pending w)) w.

(** One event.  A click needs its button in the current view; a stream
    request or the device query settles once, while in flight; a frame is
    delivered to a video element that has a source. *)
Definition step (w : World) (ev : Event) : option World :=
  match ev with
  | Click button =>
      match onClick button (controls (render (state w))) with
      | Some h => Some (handle h w)
      | None => None
      end
  | DevicesEnumerated devices =>
      if enumerating w then Some (onDevices devices (withEnumerating false w))
      else None
  | StreamGranted request s =>
      if request <? List.length (pending w) then Some (onStream s (settle request w))
      else None
  | StreamRejected request err =>
      if request <? List.length (pending w) then Some (onStreamError err (settle request w))
      else None
  | VideoFrame vw vh frame =>
      match videoRef w with
      | Some el =>
          match srcObject el with
          | Some s =>
              if (0 <? vw) && (0 <? vh)
              then Some (withVideo (Some {| srcObject := Some s; videoWidth := vw;
                                            videoHeight := vh; currentFrame := frame |}) w)
              else None
          | None => None
          end
      | None => None
      end
  end.

Fixpoint run (w : World) (evs : list Event) : option World :=
  match evs with
  | [] => Some w
  | ev :: rest =>
      match step w ev with
      | Some w' => run w' rest
      | None => None
      end
  end.

(** The worlds the mounted component can be in. *)
Definition reachable (w : World) : Prop :=
  exists has2d evs, run (mount has2d) evs = Some w.

End Handlers.

(** *** Reading the call log *)

(** The still most recently produced by a capture. *)
Fixpoint lastStill (cs : list Call) : option string :=
  match cs with
  | [] => None
  | c :: rest =>
      match lastStill rest with
      | Some d => Some d
      | None => match c with
                | ToDataURL d => Some d
                | _ => None
                end
      end
  end.

Definition call_is_stop (t : Track) (c : Call) : bool :=
  match c with
  | TrackStop t' => t =? t'
  | _ => false
  end.

(** How many times [track.stop()] was called on a track. *)
Definition stopCount (t : Track) (cs : list Call) : nat :=
  List.length (filter (call_is_stop t) cs).

(** Whether some button of a view calls the [onClose] prop. *)
Definition closeAvailable (v : View) : bool :=
  existsb (fun bh => match snd bh with HClose => true | _ => false end) (controls v).

(** Every still handed to the host was produced by an earlier capture. *)
Definition photosFromCaptures (cs : list Call) : Prop :=
  forall before after d,
    cs = before ++ OnPhotoTaken d :: after ->
    In (ToDataURL d) before /\ d <> "".

(** ** Sample data *)

(** A stand-in for the browser's encoder: one letter per pixel, rows
    separated by a slash. *)
Definition demoEncoder (type : string) (quality : Q) (img : Bitmap) : string :=
  concat "/" (map (fun row =>
                     concat "" (map (fun p => String (ascii_of_nat (65 + Z.to_nat p)) "") row))
                  img).

Definition frontStream : MediaStream := {| streamId := 1; getTracks := [10] |}.
Definition backStream : MediaStream := {| streamId := 2; getTracks := [20] |}.
Definition thirdStream : MediaStream := {| streamId := 3; getTracks := [30] |}.

Definition twoCameras : list MediaDeviceInfo :=
  [ {| deviceId := "front"; kind := "videoinput" |};
    {| deviceId := "mic"; kind := "audioinput" |};
    {| deviceId := "back"; kind := "videoinput" |} ].

Definition demoFrame : Bitmap := [[1; 2; 3]; [4; 5; 6]]%Z.

Definition demoVideo : HTMLVideoElement :=
  {| srcObject := Some frontStream; videoWidth := 3; videoHeight := 2;
     currentFrame := demoFrame |}.

(** A live front-camera session showing [demoFrame]. *)
Definition liveTrace : list Event :=
  [DevicesEnumerated twoCameras; StreamGranted 0 frontStream; VideoFrame 3 2 demoFrame].

(** Two switches in a row, the second before the first request settles. *)
Definition rapidSwitchTrace : list Event :=
  [DevicesEnumerated twoCameras; StreamGranted 0 frontStream;
   Click SwitchCameraButton; Click SwitchCameraButton;
   StreamGranted 0 backStream; StreamGranted 0 thirdStream;
   Click SwitchCameraButton].

(** ** Derived notions used by the statements *)

(** *** Canvas of a capture *)

(** The canvas right after the two size assignments of a capture. *)
Definition sized (w h : nat) (has2d : bool) : HTMLCanvasElement :=
  {| width := w; height := h; context2d := has2d;
     ctm := identity; bitmap := blank w h |}.

(** The matrix of a front capture: translate by the width, then flip X. *)
Definition mirrorMatrix (w : nat) : Matrix :=
  scaleM (-1) 1 (translateM (Z.of_nat w) 0 identity).

(** The canvas a capture leaves behind, by facing mode. *)
Definition captureCanvas (mode : FacingMode) (video : HTMLVideoElement)
    (has2d : bool) : HTMLCanvasElement :=
  let w := videoWidth video in
  let h := videoHeight video in
  drawImage video 0 0 (Z.of_nat w) (Z.of_nat h)
    match mode with
    | user => scale (-1) 1 (translate (Z.of_nat w) 0 (sized w h has2d))
    | environment => sized w h has2d
    end.

(** *** Call logs and runs *)

(** Calls that neither produce a still nor hand one to the host. *)
Definition quiet (ext : list Call) : Prop :=
  forall c, In c ext ->
    match c with
    | ToDataURL _ | OnPhotoTaken _ => False
    | _ => True
    end.

(** What holds of the error message, the captured image and the call log in
    every world of a run. *)
Definition consistent (w : World) : Prop :=
  (error (state w) = None
   \/ error (state w) = Some permissionDeniedMessage
   \/ error (state w) = Some cameraUnavailableMessage)
  /\ (forall d, capturedImage (state w) = Some d ->
                d <> "" /\ lastStill (calls w) = Some d)
  /\ photosFromCaptures (calls w).

(** The world after a run of the sample session. *)
Definition after (evs : list Event) : World :=
  match run demoEncoder (mount true) evs with
  | Some w => w
  | None => mount true
  end.

(** *** The two statements the code does not satisfy as worded *)

(** C1, as the specification words it: whenever a click on the shutter
    produces a captured image, no error is set and the video has nonzero
    width and height. *)
Definition C1_as_stated (encodeImage : string -> Q -> Bitmap -> string) : Prop :=
  forall w w' d video,
    reachable encodeImage w ->
    step encodeImage w (Click ShutterButton) = Some w' ->
    capturedImage (state w') = Some d ->
    videoRef w = Some video ->
    error (state w) = None /\ videoWidth video <> 0 /\ videoHeight video <> 0.

(** A rejection value that is not an [Error]. *)
Definition plainRejection : Rejection :=
  {| instanceofError := false; name := "OverconstrainedError" |}.

(** C5, as the specification words it: every rejection sets the error
    message, the permission one for [NotAllowedError] and the generic one
    otherwise. *)
Definition C5_as_stated (encodeImage : string -> Q -> Bitmap -> string) : Prop :=
  forall w request err w',
    step encodeImage w (StreamRejected request err) = Some w' ->
    (name err = "NotAllowedError" ->
     error (state w') = Some permissionDeniedMessage)
    /\ (name err <> "NotAllowedError" ->
        error (state w') = Some cameraUnavailableMessage).

(** *** Notions for the rest of the component *)

(** How many of the enumerated devices are video inputs. *)
Definition videoInputCount (devices : list MediaDeviceInfo) : nat :=
  count_occ string_dec (map kind devices) "videoinput".

(** The other facing mode. *)
Definition otherMode (m : FacingMode) : FacingMode :=
  match m with
  | user => environment
  | environment => user
  end.

Definition isSwitch (ev : Event) : bool :=
  match ev with
  | Click SwitchCameraButton => true
  | _ => false
  end.

(** Calls that neither stop a track nor ask the browser for a stream or for
    the device list. *)
Definition silent (ext : list Call) : Prop :=
  forall c, In c ext ->
    match c with
    | TrackStop _ | GetUserMedia _ | EnumerateDevices => False
    | _ => True
    end.

(** The constraints of the most recent stream request. *)
Fixpoint lastRequest (cs : list Call) : option Constraints :=
  match cs with
  | [] => None
  | c :: rest =>
      match lastRequest rest with
      | Some k => Some k
      | None => match c with
                | GetUserMedia k => Some k
                | _ => None
                end
      end
  end.

(** The constraints the effect builds for a facing mode (lines 41-47). *)
Definition constraintsFor (m : FacingMode) : Constraints :=
  {| c_facingMode := m; c_widthIdeal := 1280; c_heightIdeal := 720 |}.

(** A frame that has the size its video element reports. *)
Definition frameFits (v : HTMLVideoElement) : Prop :=
  List.length (currentFrame v) = videoHeight v
  /\ Forall (fun row => List.length row = videoWidth v) (currentFrame v).

(** The refs follow the view: the video element is attached exactly in the
    live view, the canvas always, with the 2D support it was created with. *)
Definition refsFollowView (has2d : bool) (w : World) : Prop :=
  (viewState (state w) = Live -> videoRef w <> None)
  /\ (viewState (state w) <> Live -> videoRef w = None)
  /\ exists cv, canvasRef w = Some cv /\ context2d cv = has2d.

(** The video element either is as created or shows the held stream. *)
Definition previewBound (w : World) : Prop :=
  forall el, videoRef w = Some el ->
    match srcObject el with
    | Some s => stream (state w) = Some s
    | None => el = freshVideo
    end.

(** Whether a string is a JPEG data URL. *)
Definition isJpegDataUrl (d : string) : bool :=
  String.prefix "data:image/jpeg;base64," d.

(** C3, as the specification words it: every capture that goes through
    leaves the canvas at the video's size and stores a JPEG data URL. *)
Definition C3_as_stated (encodeImage : string -> Q -> Bitmap -> string) : Prop :=
  forall w video canvas,
    videoRef w = Some video -> canvasRef w = Some canvas -> getContext canvas = true ->
    exists canvas' d,
      canvasRef (handleTakePhoto encodeImage w) = Some canvas'
      /\ width canvas' = videoWidth video
      /\ height canvas' = videoHeight video
      /\ capturedImage (state (handleTakePhoto encodeImage w)) = Some d
      /\ isJpegDataUrl d = true.

(** ** Properties *)

(** *** Rendering *)

Lemma panel_cases (s : State) :
  panel (render s) =
    if truthy (error s) then ErrorPanel (text (error s))
    else if truthy (capturedImage s) then CapturedPhoto (text (capturedImage s))
    else LiveVideo.
Proof. reflexivity. Qed.

Lemma viewState_cases (s : State) :
  viewState s =
    if truthy (error s) then Error
    else if truthy (capturedImage s) then Captured else Live.
Proof.
  unfold viewState. rewrite panel_cases.
  destruct (truthy (error s)); [reflexivity|].
  destruct (truthy (capturedImage s)); reflexivity.
Qed.

(** C9. The panel of every view is exactly one of the error message, the
    captured still and the live video: the error message whenever [error] is
    set, the still when [error] is not set and [capturedImage] is, and the
    live video exactly when neither is set (set meaning truthy, as the JSX
    conditions test it). *)
Theorem C9_panel_priority (s : State) :
  (truthy (error s) = true -> panel (render s) = ErrorPanel (text (error s)))
  /\ (truthy (error s) = false -> truthy (capturedImage s) = true ->
      panel (render s) = CapturedPhoto (text (capturedImage s)))
  /\ (panel (render s) = LiveVideo <->
      truthy (error s) = false /\ truthy (capturedImage s) = false)
  /\ ~ ((exists m, panel (render s) = ErrorPanel m)
        /\ (exists d, panel (render s) = CapturedPhoto d)).
Proof.
  rewrite panel_cases.
  destruct (truthy (error s)) eqn:He; destruct (truthy (capturedImage s)) eqn:Hc;
    repeat split; intros; try reflexivity; try discriminate;
    try (destruct H; discriminate).
  all: try (intros [[m Hm] [d Hd]]; discriminate).
  all: try (destruct H as [[m Hm] [d Hd]]; discriminate).
Qed.

Lemma C9_panel_priority_witness :
  panel (render (setError (Some cameraUnavailableMessage)
                   (setCapturedImage (Some "data:,") initialState)))
  = ErrorPanel cameraUnavailableMessage.
Proof.
  apply (C9_panel_priority
           (setError (Some cameraUnavailableMessage)
              (setCapturedImage (Some "data:,") initialState))).
  reflexivity.
Defined.

Lemma controls_cases (s : State) :
  controls (render s) =
    match viewState s with
    | Error => [(GoBackButton, HClose)]
    | Captured => [(RetakeButton, HRetake); (UsePhotoButton, HConfirm)]
    | Live =>
        (ShutterButton, HTakePhoto)
          :: (if hasMultipleCameras s then [(SwitchCameraButton, HSwitchCamera)] else [])
          ++ [(CloseButton, HClose)]
    end.
Proof.
  rewrite viewState_cases. unfold render; cbn [controls].
  destruct (truthy (error s)), (truthy (capturedImage s)); reflexivity.
Qed.

(** C7. A button calling [onClose] is in the view exactly when the view is
    not the captured one: the captured view has only retake and confirm, the
    live view has the close button, the error view has the go-back button,
    and both of these call [onClose]. *)
Theorem C7_close_unless_captured (s : State) :
  (closeAvailable (render s) = true <-> viewState s <> Captured)
  /\ (viewState s = Captured ->
      controls (render s) = [(RetakeButton, HRetake); (UsePhotoButton, HConfirm)])
  /\ (viewState s = Live -> onClick CloseButton (controls (render s)) = Some HClose)
  /\ (viewState s = Error -> controls (render s) = [(GoBackButton, HClose)])
  /\ (forall encodeImage w, handle encodeImage HClose w = call [OnClose] w).
Proof.
  unfold closeAvailable. rewrite controls_cases.
  destruct (viewState s) eqn:Hv; repeat split; intros; try discriminate;
    try reflexivity; try congruence.
  - destruct (hasMultipleCameras s); reflexivity.
  - destruct (hasMultipleCameras s); reflexivity.
Qed.

(** *** State updates *)

Lemma facingMode_eqb_refl (m : FacingMode) : facingMode_eqb m m = true.
Proof. destruct m; reflexivity. Qed.

Lemma state_commit (s' : State) (w : World) : state (commit s' w) = s'.
Proof.
  unfold commit. destruct (facingMode_eqb _ _); reflexivity.
Qed.

Lemma commit_same_facing (s' : State) (w : World) :
  facingMode s' = facingMode (state w) ->
  commit s' w =
    {| state := s'; videoRef := reconcileVideo s' (videoRef w);
       canvasRef := canvasRef w; cleanupStream := cleanupStream w;
       pending := pending w; enumerating := enumerating w; calls := calls w |}.
Proof.
  intros H. unfold commit. rewrite H, facingMode_eqb_refl. reflexivity.
Qed.

(** A click goes to the handler of the current view state. *)
Lemma click_cases (encodeImage : string -> Q -> Bitmap -> string)
    (w : World) (button : Button) :
  step encodeImage w (Click button) =
    match viewState (state w), button with
    | Error, GoBackButton => Some (onClose w)
    | Captured, RetakeButton => Some (handleRetake w)
    | Captured, UsePhotoButton => Some (handleConfirm w)
    | Live, ShutterButton => Some (handleTakePhoto encodeImage w)
    | Live, SwitchCameraButton =>
        if hasMultipleCameras (state w) then Some (handleSwitchCamera w) else None
    | Live, CloseButton => Some (onClose w)
    | _, _ => None
    end.
Proof.
  unfold step. rewrite controls_cases.
  destruct (viewState (state w)), button; try reflexivity;
    destruct (hasMultipleCameras (state w)); reflexivity.
Qed.

Lemma handleRetake_state_calls (w : World) :
  state (handleRetake w) = setCapturedImage None (state w)
  /\ calls (handleRetake w) = calls w.
Proof.
  unfold handleRetake. rewrite commit_same_facing by reflexivity. split; reflexivity.
Qed.

(** C8. Retake sets [capturedImage] to null and changes no other state cell:
    the stream handle, the facing mode, the error message and the
    multi-camera flag stay as they were; nothing is added to the call log, so
    no track is stopped and no stream requested; and when the retake button
    is clicked (which needs the captured view) the view returns to live. *)
Theorem C8_retake_frame (encodeImage : string -> Q -> Bitmap -> string) (w : World) :
  state (handleRetake w) = setCapturedImage None (state w)
  /\ capturedImage (state (handleRetake w)) = None
  /\ stream (state (handleRetake w)) = stream (state w)
  /\ facingMode (state (handleRetake w)) = facingMode (state w)
  /\ error (state (handleRetake w)) = error (state w)
  /\ hasMultipleCameras (state (handleRetake w)) = hasMultipleCameras (state w)
  /\ calls (handleRetake w) = calls w
  /\ (forall t, stopCount t (calls (handleRetake w)) = stopCount t (calls w))
  /\ pending (handleRetake w) = pending w
  /\ cleanupStream (handleRetake w) = cleanupStream w
  /\ canvasRef (handleRetake w) = canvasRef w
  /\ (forall w', step encodeImage w (Click RetakeButton) = Some w' ->
        w' = handleRetake w
        /\ viewState (state w) = Captured
        /\ viewState (state w') = Live).
Proof.
  assert (Hw : handleRetake w =
               {| state := setCapturedImage None (state w);
                  videoRef := reconcileVideo (setCapturedImage None (state w)) (videoRef w);
                  canvasRef := canvasRef w; cleanupStream := cleanupStream w;
                  pending := pending w; enumerating := enumerating w;
                  calls := calls w |}).
  { unfold handleRetake. apply commit_same_facing. reflexivity. }
  repeat split; try (rewrite Hw; reflexivity).
  all: rewrite click_cases in H.
  all: destruct (viewState (state w)) eqn:Hv; try discriminate.
  - congruence.
  - reflexivity.
  - injection H as <-. rewrite Hw. rewrite viewState_cases in *.
    cbn [state setCapturedImage error capturedImage truthy].
    destruct (truthy (error (state w))); [discriminate | reflexivity].
Qed.

Lemma C8_retake_frame_witness :
  exists w w',
    run demoEncoder (mount true) (liveTrace ++ [Click ShutterButton]) = Some w
    /\ step demoEncoder w (Click RetakeButton) = Some w'
    /\ w' = handleRetake w
    /\ viewState (state w) = Captured
    /\ viewState (state w') = Live
    /\ stream (state w') = Some frontStream
    /\ calls w' = calls w.
Proof.
  destruct (run demoEncoder (mount true) (liveTrace ++ [Click ShutterButton]))
    as [w|] eqn:Hrun; [|vm_compute in Hrun; discriminate].
  exists w, (handleRetake w).
  assert (Hstep : step demoEncoder w (Click RetakeButton) = Some (handleRetake w)).
  { vm_compute in Hrun. injection Hrun as <-. vm_compute. reflexivity. }
  pose proof (C8_retake_frame demoEncoder w) as H.
  destruct H as (_ & _ & Hs & _ & _ & _ & Hc & _ & _ & _ & _ & Hclick).
  destruct (Hclick _ Hstep) as (_ & Hv & Hv').
  repeat split; try assumption.
  rewrite Hs. vm_compute in Hrun. injection Hrun as <-. reflexivity.
Defined.

(** *** The canvas *)

Lemma div_center (n m x : Z) :
  (n = 2 * x + 1 -> m = 2 -> n / m - 0 = x)%Z.
Proof.
  intros -> ->. rewrite Z.sub_0_r. symmetry.
  apply Z.div_unique with (r := 1%Z); lia.
Qed.

Lemma div_center_flipped (n m x : Z) :
  (n = 2 * x + 1 -> m = -2 -> n / m - 0 = - x - 1)%Z.
Proof.
  intros -> ->. rewrite Z.sub_0_r. symmetry.
  apply Z.div_unique with (r := (-1)%Z); lia.
Qed.

Lemma div_unit_scale (x w : Z) : (0 < w -> (2 * x + 1) * w / (2 * w) = x)%Z.
Proof.
  intros Hw. symmetry. apply Z.div_unique with (r := w); lia.
Qed.

(** A device pixel whose centre falls on the user-space pixel [(ux, uy)] of
    the destination rectangle. *)
Lemma drawPixel_inside (m : Matrix) (v : HTMLVideoElement)
    (dx dy dw dh : Z) (old : Pixel) (X Y : nat) (ux uy : Z) :
  (a m * d m - b m * c m <> 0)%Z ->
  ((d m * (2 * Z.of_nat X + 1 - 2 * e m) - c m * (2 * Z.of_nat Y + 1 - 2 * f m))
     / (2 * (a m * d m - b m * c m)) - dx = ux)%Z ->
  ((a m * (2 * Z.of_nat Y + 1 - 2 * f m) - b m * (2 * Z.of_nat X + 1 - 2 * e m))
     / (2 * (a m * d m - b m * c m)) - dy = uy)%Z ->
  (0 <= ux < dw)%Z -> (0 <= uy < dh)%Z ->
  drawPixel m v dx dy dw dh old X Y =
    sample (currentFrame v)
      (Z.to_nat ((2 * ux + 1) * Z.of_nat (videoWidth v) / (2 * dw)))
      (Z.to_nat ((2 * uy + 1) * Z.of_nat (videoHeight v) / (2 * dh))).
Proof.
  intros Hdet Hx Hy [Hx0 Hx1] [Hy0 Hy1]. unfold drawPixel.
  destruct (Z.eqb_spec (a m * d m - b m * c m) 0) as [E|_]; [contradiction|].
  rewrite Hx, Hy.
  destruct (Z.leb_spec 0 ux); [|lia].
  destruct (Z.ltb_spec ux dw); [|lia].
  destruct (Z.leb_spec 0 uy); [|lia].
  destruct (Z.ltb_spec uy dh); [|lia].
  reflexivity.
Qed.

Lemma drawPixel_identity (v : HTMLVideoElement) (old : Pixel) (X Y : nat) :
  X < videoWidth v -> Y < videoHeight v ->
  drawPixel identity v 0 0 (Z.of_nat (videoWidth v)) (Z.of_nat (videoHeight v)) old X Y
  = sample (currentFrame v) X Y.
Proof.
  intros HX HY.
  rewrite (drawPixel_inside identity v 0 0 _ _ old X Y (Z.of_nat X) (Z.of_nat Y)).
  - rewrite !div_unit_scale by lia. rewrite !Nat2Z.id. reflexivity.
  - cbn; lia.
  - cbn [a b c d e f identity]. apply div_center; lia.
  - cbn [a b c d e f identity]. apply div_center; lia.
  - lia.
  - lia.
Qed.

Lemma drawPixel_mirror (v : HTMLVideoElement) (old : Pixel) (X Y : nat) :
  X < videoWidth v -> Y < videoHeight v ->
  drawPixel (mirrorMatrix (videoWidth v)) v 0 0
            (Z.of_nat (videoWidth v)) (Z.of_nat (videoHeight v)) old X Y
  = sample (currentFrame v) (videoWidth v - 1 - X) Y.
Proof.
  intros HX HY.
  rewrite (drawPixel_inside (mirrorMatrix (videoWidth v)) v 0 0 _ _ old X Y
             (Z.of_nat (videoWidth v) - Z.of_nat X - 1)%Z (Z.of_nat Y)).
  - rewrite !div_unit_scale by lia. rewrite Nat2Z.id. f_equal. lia.
  - cbn; lia.
  - cbn [a b c d e f identity mirrorMatrix scaleM translateM].
    rewrite (div_center_flipped _ _ (Z.of_nat X - Z.of_nat (videoWidth v))%Z); lia.
  - cbn [a b c d e f identity mirrorMatrix scaleM translateM].
    rewrite (div_center_flipped _ _ (- Z.of_nat Y - 1)%Z); lia.
  - lia.
  - lia.
Qed.

Lemma map_seq_flip {A : Type} (g : nat -> A) (n : nat) :
  map (fun X => g (n - 1 - X)) (seq 0 n) = rev (map g (seq 0 n)).
Proof.
  induction n as [|n IH]; [reflexivity|].
  rewrite (seq_S n 0) at 2. rewrite map_app, rev_app_distr. cbn [map rev app seq].
  f_equal; [f_equal; lia|].
  rewrite <- seq_shift, map_map, <- IH.
  apply map_ext. intros X. f_equal. lia.
Qed.

Lemma mirror_blank (w h : nat) : mirror (blank w h) = blank w h.
Proof.
  unfold mirror, blank. rewrite map_repeat. f_equal.
  induction w as [|w IH]; [reflexivity|].
  cbn [repeat rev]. rewrite IH. symmetry. apply repeat_cons.
Qed.

Lemma setHeight_setWidth (w h : nat) (cv : HTMLCanvasElement) :
  setHeight h (setWidth w cv) = sized w h (context2d cv).
Proof. reflexivity. Qed.

(** Drawing the frame through the mirror matrix gives the mirror image of
    drawing it through the identity. *)
Lemma drawImage_mirror (v : HTMLVideoElement) (has2d : bool) :
  let w := videoWidth v in
  let h := videoHeight v in
  bitmap (drawImage v 0 0 (Z.of_nat w) (Z.of_nat h)
            (scale (-1) 1 (translate (Z.of_nat w) 0 (sized w h has2d))))
  = mirror (bitmap (drawImage v 0 0 (Z.of_nat w) (Z.of_nat h) (sized w h has2d))).
Proof.
  intros w h. unfold drawImage.
  destruct ((videoWidth v =? 0) || (videoHeight v =? 0)) eqn:Hz.
  - cbn [bitmap scale translate withCtm sized]. symmetry. apply mirror_blank.
  - cbn [bitmap width height ctm scale translate withCtm sized].
    unfold mirror. rewrite map_map. apply map_ext_in. intros Y HY.
    apply in_seq in HY.
    rewrite <- map_seq_flip. apply map_ext_in. intros X HX. apply in_seq in HX.
    fold (mirrorMatrix w). subst w h.
    rewrite drawPixel_mirror by lia.
    rewrite drawPixel_identity by lia. reflexivity.
Qed.

(** *** Capture *)

Lemma width_drawImage v dx dy dw dh cv :
  width (drawImage v dx dy dw dh cv) = width cv.
Proof. unfold drawImage. destruct (_ || _); reflexivity. Qed.

Lemma height_drawImage v dx dy dw dh cv :
  height (drawImage v dx dy dw dh cv) = height cv.
Proof. unfold drawImage. destruct (_ || _); reflexivity. Qed.

Lemma ctm_drawImage v dx dy dw dh cv :
  ctm (drawImage v dx dy dw dh cv) = ctm cv.
Proof. unfold drawImage. destruct (_ || _); reflexivity. Qed.

Lemma width_captureCanvas mode video has2d :
  width (captureCanvas mode video has2d) = videoWidth video.
Proof. unfold captureCanvas. rewrite width_drawImage. destruct mode; reflexivity. Qed.

Lemma height_captureCanvas mode video has2d :
  height (captureCanvas mode video has2d) = videoHeight video.
Proof. unfold captureCanvas. rewrite height_drawImage. destruct mode; reflexivity. Qed.

Lemma bitmap_captureCanvas_rows mode video has2d :
  List.length (bitmap (captureCanvas mode video has2d)) = videoHeight video
  /\ Forall (fun row => List.length row = videoWidth video)
            (bitmap (captureCanvas mode video has2d)).
Proof.
  unfold captureCanvas, drawImage.
  destruct ((videoWidth video =? 0) || (videoHeight video =? 0)).
  - destruct mode; cbn [bitmap scale translate withCtm sized]; unfold blank;
      (split; [apply repeat_length|]);
      apply Forall_forall; intros row Hrow; apply repeat_spec in Hrow; subst row;
      apply repeat_length.
  - cbn [bitmap].
    assert (Hw : forall cv, cv = match mode with
                  | user => scale (-1) 1 (translate (Z.of_nat (videoWidth video)) 0
                                            (sized (videoWidth video) (videoHeight video) has2d))
                  | environment => sized (videoWidth video) (videoHeight video) has2d
                  end -> width cv = videoWidth video /\ height cv = videoHeight video).
    { intros cv ->. destruct mode; split; reflexivity. }
    destruct (Hw _ eq_refl) as [-> ->]. split.
    + rewrite length_map. apply length_seq.
    + apply Forall_forall. intros row Hrow. apply in_map_iff in Hrow.
      destruct Hrow as (Y & <- & _). rewrite length_map. apply length_seq.
Qed.

(** What [handleTakePhoto] does when both elements are attached and a 2D
    context is to be had. *)
Lemma handleTakePhoto_success (encodeImage : string -> Q -> Bitmap -> string)
    (w : World) (video : HTMLVideoElement) (canvas : HTMLCanvasElement) :
  videoRef w = Some video -> canvasRef w = Some canvas -> getContext canvas = true ->
  handleTakePhoto encodeImage w =
    let cv := captureCanvas (facingMode (state w)) video true in
    let dataUrl := toDataURL encodeImage "image/jpeg" (9 # 10) cv in
    {| state := setCapturedImage (Some dataUrl) (state w);
       videoRef := reconcileVideo (setCapturedImage (Some dataUrl) (state w)) (Some video);
       canvasRef := Some cv;
       cleanupStream := cleanupStream w; pending := pending w;
       enumerating := enumerating w;
       calls := calls w ++ [ToDataURL dataUrl] |}.
Proof.
  intros Hv Hc Hctx. unfold handleTakePhoto. rewrite Hv, Hc.
  rewrite setHeight_setWidth. unfold getContext in *. cbn [context2d sized].
  rewrite Hctx. cbn zeta.
  rewrite commit_same_facing by reflexivity.
  unfold captureCanvas.
  destruct (facingMode (state w)) eqn:Hm;
    cbn [state videoRef canvasRef cleanupStream pending enumerating calls
         call withCanvas width height scale translate withCtm sized];
    rewrite Hv; reflexivity.
Qed.

(** In every other case [handleTakePhoto] changes neither the state nor the
    call log. *)
Lemma handleTakePhoto_cases (encodeImage : string -> Q -> Bitmap -> string) (w : World) :
  (exists video canvas,
      videoRef w = Some video /\ canvasRef w = Some canvas /\ getContext canvas = true)
  \/ (state (handleTakePhoto encodeImage w) = state w
      /\ calls (handleTakePhoto encodeImage w) = calls w).
Proof.
  unfold handleTakePhoto.
  destruct (videoRef w) as [video|]; [|right; split; reflexivity].
  destruct (canvasRef w) as [canvas|]; [|right; split; reflexivity].
  rewrite setHeight_setWidth. unfold getContext. cbn [context2d sized].
  destruct (context2d canvas) eqn:Hctx.
  - left. exists video, canvas. repeat split; assumption.
  - right. split; reflexivity.
Qed.

Lemma toDataURL_nonempty encodeImage type quality cv :
  toDataURL encodeImage type quality cv <> "".
Proof.
  unfold toDataURL. destruct (_ || _); cbn; discriminate.
Qed.

Lemma toDataURL_without_pixels (encodeImage : string -> Q -> Bitmap -> string)
    (type : string) (quality : Q) (mode : FacingMode) (video : HTMLVideoElement)
    (has2d : bool) :
  videoWidth video = 0 \/ videoHeight video = 0 ->
  toDataURL encodeImage type quality (captureCanvas mode video has2d) = "data:,".
Proof.
  intros Hz. unfold toDataURL. rewrite width_captureCanvas, height_captureCanvas.
  destruct Hz as [-> | ->]; cbn [Nat.eqb orb]; [reflexivity|].
  rewrite orb_true_r. reflexivity.
Qed.

(** A capture goes through right after mounting, while the video element
    has no size, and what it stores is not a JPEG data URL. *)
Lemma C3_counterexample : ~ C3_as_stated demoEncoder.
Proof.
  intros H.
  destruct (H (mount true) freshVideo (Canvas.fresh true) eq_refl eq_refl eq_refl)
    as (canvas' & d & _ & _ & _ & Hd & Hjpeg).
  vm_compute in Hd. injection Hd as <-. vm_compute in Hjpeg. discriminate.
Qed.

(** C3 (amended). A capture that goes through (video and canvas attached,
    2D context available) leaves the canvas at the video's native size,
    [canvas.width = video.videoWidth] and [canvas.height =
    video.videoHeight], with a bitmap of that many rows and columns, and
    stores as the captured image what [toDataURL('image/jpeg', 0.9)] returns
    for that canvas: a JPEG data URL of the bitmap at quality 0.9 when the
    video has nonzero width and height, and ["data:,"] when it has not. *)
Theorem C3_capture_native_size_jpeg
    (encodeImage : string -> Q -> Bitmap -> string)
    (w : World) (video : HTMLVideoElement) (canvas : HTMLCanvasElement) :
  videoRef w = Some video -> canvasRef w = Some canvas -> getContext canvas = true ->
  exists canvas',
    canvasRef (handleTakePhoto encodeImage w) = Some canvas'
    /\ width canvas' = videoWidth video
    /\ height canvas' = videoHeight video
    /\ List.length (bitmap canvas') = videoHeight video
    /\ Forall (fun row => List.length row = videoWidth video) (bitmap canvas')
    /\ capturedImage (state (handleTakePhoto encodeImage w))
       = Some (toDataURL encodeImage "image/jpeg" (9 # 10) canvas')
    /\ calls (handleTakePhoto encodeImage w)
       = calls w ++ [ToDataURL (toDataURL encodeImage "image/jpeg" (9 # 10) canvas')]
    /\ (videoWidth video <> 0 -> videoHeight video <> 0 ->
        capturedImage (state (handleTakePhoto encodeImage w))
        = Some ("data:image/jpeg;base64,"
                ++ encodeImage "image/jpeg" (9 # 10) (bitmap canvas'))%string
        /\ isJpegDataUrl (toDataURL encodeImage "image/jpeg" (9 # 10) canvas') = true)
    /\ (videoWidth video = 0 \/ videoHeight video = 0 ->
        capturedImage (state (handleTakePhoto encodeImage w)) = Some "data:,"
        /\ isJpegDataUrl (toDataURL encodeImage "image/jpeg" (9 # 10) canvas') = false).
Proof.
  intros Hv Hc Hctx.
  rewrite (handleTakePhoto_success encodeImage w video canvas Hv Hc Hctx).
  cbn zeta. cbn [state canvasRef calls setCapturedImage capturedImage].
  exists (captureCanvas (facingMode (state w)) video true).
  destruct (bitmap_captureCanvas_rows (facingMode (state w)) video true) as [Hrows Hcols].
  split; [reflexivity|].
  split; [apply width_captureCanvas|].
  split; [apply height_captureCanvas|].
  split; [exact Hrows|].
  split; [exact Hcols|].
  split; [reflexivity|].
  split; [reflexivity|].
  split.
  - intros Hw0 Hh0. unfold toDataURL.
    rewrite width_captureCanvas, height_captureCanvas.
    destruct (Nat.eqb_spec (videoWidth video) 0); [contradiction|].
    destruct (Nat.eqb_spec (videoHeight video) 0); [contradiction|].
    split; [reflexivity|]. cbn [orb].
    match goal with
    | |- context [encodeImage ?t ?q ?img] => generalize (encodeImage t q img)
    end.
    intros payload. destruct payload; vm_compute; reflexivity.
  - intros Hz. rewrite (toDataURL_without_pixels encodeImage _ _ _ _ _ Hz).
    split; [reflexivity|]. vm_compute. reflexivity.
Qed.

(** *** The call log along a run *)

Lemma quiet_nil : quiet [].
Proof. intros c []. Qed.

Lemma quiet_app (l1 l2 : list Call) : quiet l1 -> quiet l2 -> quiet (l1 ++ l2).
Proof.
  intros H1 H2 c Hc. apply in_app_or in Hc.
  destruct Hc as [Hc|Hc]; [apply H1 | apply H2]; exact Hc.
Qed.

Lemma quiet_stopTracks (s : option MediaStream) : quiet (stopTracks s).
Proof.
  intros c Hc. destruct s as [m|]; [|destruct Hc].
  cbn in Hc. apply in_map_iff in Hc. destruct Hc as (t & <- & _). exact I.
Qed.

Lemma quiet_single (c : Call) :
  match c with ToDataURL _ | OnPhotoTaken _ => False | _ => True end -> quiet [c].
Proof. intros H c' [<-|[]]. exact H. Qed.

Create HintDb calls.
#[local] Hint Resolve quiet_nil quiet_app quiet_stopTracks quiet_single : calls.

Lemma lastStill_quiet (ext : list Call) : quiet ext -> lastStill ext = None.
Proof.
  induction ext as [|c ext IH]; intros Hq; [reflexivity|].
  cbn [lastStill]. rewrite IH by (intros c' Hc'; apply Hq; right; exact Hc').
  specialize (Hq c (or_introl eq_refl)). destruct c; try reflexivity; contradiction.
Qed.

Lemma lastStill_app (cs ext : list Call) :
  lastStill (cs ++ ext) =
    match lastStill ext with
    | Some d => Some d
    | None => lastStill cs
    end.
Proof.
  induction cs as [|c cs IH]; cbn [app lastStill].
  - destruct (lastStill ext); reflexivity.
  - rewrite IH. destruct (lastStill ext); reflexivity.
Qed.

Lemma lastStill_In (cs : list Call) (d : string) :
  lastStill cs = Some d -> In (ToDataURL d) cs.
Proof.
  induction cs as [|c cs IH]; cbn [lastStill]; [discriminate|].
  destruct (lastStill cs) as [d'|].
  - intros H. right. apply IH. exact H.
  - destruct c; try discriminate. intros [= ->]. left. reflexivity.
Qed.

Lemma photosFromCaptures_app (cs ext : list Call) :
  photosFromCaptures cs ->
  (forall d, In (OnPhotoTaken d) ext -> In (ToDataURL d) cs /\ d <> "") ->
  photosFromCaptures (cs ++ ext).
Proof.
  intros Hcs Hext before after d Heq.
  apply app_eq_app in Heq. destruct Heq as (l & [[H1 H2] | [H1 H2]]).
  - destruct l as [|x l].
    + cbn in H2. rewrite app_nil_r in H1. subst before.
      destruct (Hext d) as [Hin Hne]; [rewrite <- H2; left; reflexivity|].
      split; assumption.
    + cbn in H2. injection H2 as <- ->. apply (Hcs before l d). exact H1.
  - subst before.
    destruct (Hext d) as [Hin Hne]; [rewrite H2; apply in_elt|].
    split; [apply in_or_app; left; exact Hin | exact Hne].
Qed.

Lemma calls_commit (s' : State) (w : World) :
  exists ext, calls (commit s' w) = calls w ++ ext /\ quiet ext.
Proof.
  unfold commit. destruct (facingMode_eqb _ _).
  - exists []. cbn [calls]. rewrite app_nil_r. auto with calls.
  - eexists. cbn [calls cameraEffect cameraCleanup call state].
    rewrite <- app_assoc. split; [reflexivity|].
    auto 6 with calls.
Qed.

(** The worlds of a run are reached one event at a time. *)
Lemma reachable_ind (encodeImage : string -> Q -> Bitmap -> string)
    (P : World -> Prop) :
  (forall has2d, P (mount has2d)) ->
  (forall w ev w', reachable encodeImage w -> P w ->
                   step encodeImage w ev = Some w' -> P w') ->
  forall w, reachable encodeImage w -> P w.
Proof.
  intros Hmount Hstep w (has2d & evs & Hrun).
  assert (G : forall evs w0 pre,
             run encodeImage (mount has2d) pre = Some w0 -> P w0 ->
             run encodeImage w0 evs = Some w -> P w).
  { clear evs Hrun. induction evs as [|ev evs IH]; intros w0 pre Hpre H0 H.
    - cbn in H. injection H as <-. exact H0.
    - cbn in H. destruct (step encodeImage w0 ev) as [w1|] eqn:Hs; [|discriminate].
      assert (Hpre1 : run encodeImage (mount has2d) (pre ++ [ev]) = Some w1).
      { clear - Hpre Hs. revert Hpre. generalize (mount has2d).
        induction pre as [|p pre IHp]; intros w' Hpre; cbn in *.
        - injection Hpre as ->. rewrite Hs. reflexivity.
        - destruct (step encodeImage w' p); [|discriminate]. apply IHp. exact Hpre. }
      apply (IH w1 (pre ++ [ev]) Hpre1); [|exact H].
      apply (Hstep w0 ev w1); [exists has2d, pre; exact Hpre | exact H0 | exact Hs]. }
  apply (G evs (mount has2d) []); [reflexivity | apply Hmount | exact Hrun].
Qed.

Lemma reachable_step (encodeImage : string -> Q -> Bitmap -> string)
    (w w' : World) (ev : Event) :
  reachable encodeImage w -> step encodeImage w ev = Some w' ->
  reachable encodeImage w'.
Proof.
  intros (has2d & evs & Hrun) Hs. exists has2d, (evs ++ [ev]).
  revert Hrun. generalize (mount has2d).
  induction evs as [|p evs IH]; intros w0 Hrun; cbn in *.
  - injection Hrun as ->. rewrite Hs. reflexivity.
  - destruct (step encodeImage w0 p); [|discriminate]. apply IH. exact Hrun.
Qed.

(** What one event does to the error message, the captured image and the
    call log. *)
Lemma step_effect (encodeImage : string -> Q -> Bitmap -> string)
    (w w' : World) (ev : Event) :
  step encodeImage w ev = Some w' ->
  (error (state w') = error (state w)
   \/ error (state w') = None
   \/ error (state w') = Some permissionDeniedMessage
   \/ error (state w') = Some cameraUnavailableMessage)
  /\ exists ext, calls w' = calls w ++ ext
     /\ ((quiet ext
          /\ (capturedImage (state w') = capturedImage (state w)
              \/ capturedImage (state w') = None))
         \/ (exists d, ext = [ToDataURL d]
                       /\ capturedImage (state w') = Some d /\ d <> "")
         \/ (exists d, ext = [OnPhotoTaken d]
                       /\ capturedImage (state w) = Some d /\ d <> ""
                       /\ state w' = state w)).
Proof.
  intros Hs. destruct ev as [button|devices|request s|request err|vw vh frame].
  - rewrite click_cases in Hs.
    destruct (viewState (state w)) eqn:Hv, button; try discriminate.
    + (* shutter *)
      injection Hs as <-.
      destruct (handleTakePhoto_cases encodeImage w)
        as [(video & canvas & Hvid & Hcv & Hctx) | [Hst Hcl]].
      * rewrite (handleTakePhoto_success encodeImage w video canvas Hvid Hcv Hctx).
        cbn zeta. cbn [state calls setCapturedImage error capturedImage].
        split; [left; reflexivity|]. eexists. split; [reflexivity|].
        right; left. eexists. repeat split. apply toDataURL_nonempty.
      * rewrite Hst, Hcl. split; [left; reflexivity|].
        exists []. rewrite app_nil_r. split; [reflexivity|].
        left. split; [apply quiet_nil | left; reflexivity].
    + (* switch *)
      destruct (hasMultipleCameras (state w)); [|discriminate].
      injection Hs as <-. unfold handleSwitchCamera.
      rewrite state_commit. cbn [setFacingMode error capturedImage].
      split; [left; reflexivity|].
      destruct (calls_commit
                  (setFacingMode (fun prev => match prev with
                                              | user => environment
                                              | environment => user
                                              end) (state w)) w) as (ext & -> & Hq).
      exists ext. split; [reflexivity|]. left. split; [exact Hq | left; reflexivity].
    + (* close *)
      injection Hs as <-. cbn [onClose call state calls].
      split; [left; reflexivity|]. eexists. split; [reflexivity|].
      left. split; [apply quiet_single; exact I | left; reflexivity].
    + (* retake *)
      injection Hs as <-.
      destruct (handleRetake_state_calls w) as (Hst & Hcl).
      rewrite Hst, Hcl. cbn [setCapturedImage error capturedImage].
      split; [left; reflexivity|]. exists []. rewrite app_nil_r.
      split; [reflexivity|]. left. split; [apply quiet_nil | right; reflexivity].
    + (* confirm *)
      injection Hs as <-. unfold handleConfirm.
      rewrite viewState_cases in Hv.
      destruct (truthy (error (state w))); [discriminate|].
      destruct (truthy (capturedImage (state w))) eqn:Ht; [|discriminate].
      cbn [call state calls]. split; [left; reflexivity|].
      eexists. split; [reflexivity|]. right; right.
      destruct (capturedImage (state w)) as [d|]; [|discriminate].
      exists d. cbn [text]. repeat split.
      cbn in Ht. intros ->. discriminate.
    + (* go back *)
      injection Hs as <-. cbn [onClose call state calls].
      split; [left; reflexivity|]. eexists. split; [reflexivity|].
      left. split; [apply quiet_single; exact I | left; reflexivity].
  - (* devices *)
    cbn [step] in Hs. destruct (enumerating w); [|discriminate].
    injection Hs as <-. unfold onDevices.
    destruct (1 <? _).
    + rewrite state_commit. cbn [setHasMultipleCameras withEnumerating state error capturedImage].
      split; [left; reflexivity|].
      destruct (calls_commit (setHasMultipleCameras true (state w)) (withEnumerating false w))
        as (ext & Hc & Hq).
      cbn [withEnumerating state] in *. rewrite Hc.
      exists ext. split; [reflexivity|]. left. split; [exact Hq | left; reflexivity].
    + cbn [withEnumerating state calls]. split; [left; reflexivity|].
      exists []. rewrite app_nil_r. split; [reflexivity|].
      left. split; [apply quiet_nil | left; reflexivity].
  - (* stream granted *)
    cbn [step] in Hs. destruct (request <? _); [|discriminate].
    injection Hs as <-. unfold onStream. cbn zeta.
    rewrite state_commit.
    set (w1 := commit (setStream (Some s) (state (settle request w))) (settle request w)).
    set (w2 := match videoRef w1 with
               | Some el => withVideo (Some (withSrcObject s el)) w1
               | None => w1
               end).
    assert (H2 : state w2 = state w1 /\ calls w2 = calls w1).
    { subst w2. destruct (videoRef w1); split; reflexivity. }
    destruct H2 as [Hst2 Hcl2].
    assert (Hst1 : state w1 = setStream (Some s) (state w)).
    { subst w1. rewrite state_commit. reflexivity. }
    rewrite Hst2, Hst1. cbn [setError setStream error capturedImage].
    split; [right; left; reflexivity|].
    destruct (calls_commit (setError None (state w2)) w2) as (ext2 & Hc2 & Hq2).
    rewrite Hst2, Hst1 in Hc2. cbn [setError setStream] in Hc2. rewrite Hc2, Hcl2.
    destruct (calls_commit (setStream (Some s) (state (settle request w))) (settle request w))
      as (ext1 & Hc1 & Hq1).
    fold w1 in Hc1. rewrite Hc1. cbn [settle withPending calls].
    rewrite <- app_assoc. eexists. split; [reflexivity|].
    left. split; [apply quiet_app; assumption | left; reflexivity].
  - (* stream rejected *)
    cbn [step] in Hs. destruct (request <? _); [|discriminate].
    injection Hs as <-. unfold onStreamError. cbn zeta.
    destruct (instanceofError err).
    + destruct (String.eqb (name err) "NotAllowedError");
        rewrite state_commit; cbn [setError error capturedImage call state settle withPending];
        (split; [auto|]);
        match goal with
        | |- context [commit ?s ?x] => destruct (calls_commit s x) as (ext & Hc & Hq)
        end;
        rewrite Hc; cbn [call calls settle withPending]; rewrite <- app_assoc;
        eexists; (split; [reflexivity|]); left;
        (split; [apply quiet_app; [apply quiet_single; exact I | exact Hq] | left; reflexivity]).
    + cbn [call state calls settle withPending]. split; [left; reflexivity|].
      eexists. split; [reflexivity|].
      left. split; [apply quiet_single; exact I | left; reflexivity].
  - (* video frame *)
    cbn [step] in Hs. destruct (videoRef w) as [el|]; [|discriminate].
    destruct (srcObject el); [|discriminate].
    destruct ((0 <? vw) && (0 <? vh)); [|discriminate].
    injection Hs as <-. cbn [withVideo state calls].
    split; [left; reflexivity|]. exists []. rewrite app_nil_r.
    split; [reflexivity|]. left. split; [apply quiet_nil | left; reflexivity].
Qed.

Lemma photosFromCaptures_nil : photosFromCaptures [].
Proof.
  intros before after d H. apply app_cons_not_nil in H. contradiction.
Qed.

Lemma quiet_no_photo (ext : list Call) (cs : list Call) :
  quiet ext -> forall d, In (OnPhotoTaken d) ext -> In (ToDataURL d) cs /\ d <> "".
Proof. intros Hq d Hd. destruct (Hq _ Hd). Qed.

Lemma consistent_mount (has2d : bool) : consistent (mount has2d).
Proof.
  split; [|split].
  - left. reflexivity.
  - intros d H. discriminate.
  - cbn [mount cameraEffect calls state stream initialState stopTracks app].
    apply (photosFromCaptures_app []); [apply photosFromCaptures_nil|].
    intros d [H|[H|[]]]; discriminate.
Qed.

Lemma consistent_step (encodeImage : string -> Q -> Bitmap -> string)
    (w w' : World) (ev : Event) :
  consistent w -> step encodeImage w ev = Some w' -> consistent w'.
Proof.
  intros (Herr & Himg & Hpfc) Hs.
  destruct (step_effect encodeImage w w' ev Hs) as (He & ext & Hc & Hcases).
  split; [|split].
  - destruct He as [-> | [-> | [-> | ->]]]; auto.
  - intros d Hd. rewrite Hc, lastStill_app.
    destruct Hcases as [[Hq [Hsame | Hnone]] | [(d' & -> & Hd' & Hne) | (d' & -> & Hd' & Hne & Hst)]].
    + rewrite (lastStill_quiet ext Hq). apply Himg. congruence.
    + congruence.
    + rewrite Hd' in Hd. injection Hd as <-. split; [exact Hne | reflexivity].
    + cbn [lastStill]. apply Himg. rewrite <- Hst. exact Hd.
  - rewrite Hc. apply photosFromCaptures_app; [exact Hpfc|].
    destruct Hcases as [[Hq _] | [(d' & -> & _) | (d' & -> & Hd' & Hne & _)]].
    + apply quiet_no_photo. exact Hq.
    + intros d [H|[]]. discriminate.
    + intros d [H|[]]. injection H as <-.
      split; [|exact Hne]. apply lastStill_In. apply (Himg d' Hd').
Qed.

Lemma reachable_consistent (encodeImage : string -> Q -> Bitmap -> string) (w : World) :
  reachable encodeImage w -> consistent w.
Proof.
  apply reachable_ind.
  - apply consistent_mount.
  - intros w0 ev w1 _ H0 Hs. exact (consistent_step encodeImage w0 w1 ev H0 Hs).
Qed.

Lemma truthy_nonempty (d : string) : d <> "" -> truthy (Some d) = true.
Proof.
  intros Hd. cbn [truthy]. destruct (String.eqb_spec d ""); [contradiction | reflexivity].
Qed.

(** In the worlds of a run, a value is truthy exactly when it is not null. *)
Lemma reachable_truthy (encodeImage : string -> Q -> Bitmap -> string) (w : World) :
  reachable encodeImage w ->
  (truthy (error (state w)) = false -> error (state w) = None)
  /\ (truthy (capturedImage (state w)) = false -> capturedImage (state w) = None).
Proof.
  intros Hr. destruct (reachable_consistent encodeImage w Hr) as (Herr & Himg & _).
  split.
  - destruct Herr as [-> | [-> | ->]]; [reflexivity | discriminate | discriminate].
  - destruct (capturedImage (state w)) as [d|]; [|reflexivity].
    destruct (Himg d eq_refl) as [Hne _]. rewrite (truthy_nonempty d Hne). discriminate.
Qed.

(** *** Sample runs *)

Lemma reachable_after (evs : list Event) :
  run demoEncoder (mount true) evs <> None -> reachable demoEncoder (after evs).
Proof.
  intros H. exists true, evs. unfold after.
  destruct (run demoEncoder (mount true) evs); [reflexivity | contradiction].
Qed.

(** Right after mounting, before any stream is granted, the video element
    has no intrinsic size; a click on the shutter still stores a captured
    image, the empty data URL, and the view becomes the captured one. *)
Lemma C1_zero_size_capture :
  step demoEncoder (mount true) (Click ShutterButton)
    = Some (after [Click ShutterButton])
  /\ videoRef (mount true) = Some freshVideo
  /\ capturedImage (state (after [Click ShutterButton])) = Some "data:,"
  /\ viewState (state (after [Click ShutterButton])) = Captured.
Proof. repeat apply conj; vm_compute; reflexivity. Qed.

Lemma C1_counterexample : ~ C1_as_stated demoEncoder.
Proof.
  intros H.
  destruct C1_zero_size_capture as (Hs & Hv & Hc & _).
  destruct (H (mount true) (after [Click ShutterButton]) "data:," freshVideo)
    as (_ & Hw & _); try assumption.
  - exists true, []. reflexivity.
  - apply Hw. reflexivity.
Qed.

(** C1 (amended). Whenever a click on the shutter produces a captured image,
    the view was the live one: no error message is set, no still is held,
    the video and canvas elements are attached and a 2D context is
    available; and the image is the data URL of the frame drawn at the
    video's size, whatever that size is. *)
Theorem C1_capture_from_live_view
    (encodeImage : string -> Q -> Bitmap -> string) (w w' : World) (d : string) :
  reachable encodeImage w ->
  step encodeImage w (Click ShutterButton) = Some w' ->
  capturedImage (state w') = Some d ->
  error (state w) = None
  /\ capturedImage (state w) = None
  /\ viewState (state w) = Live
  /\ exists video canvas,
       videoRef w = Some video /\ canvasRef w = Some canvas
       /\ getContext canvas = true
       /\ d = toDataURL encodeImage "image/jpeg" (9 # 10)
                (captureCanvas (facingMode (state w)) video true).
Proof.
  intros Hr Hs Hd. rewrite click_cases in Hs.
  destruct (viewState (state w)) eqn:Hv; try discriminate.
  injection Hs as <-.
  destruct (reachable_truthy encodeImage w Hr) as [He Hc].
  rewrite viewState_cases in Hv.
  destruct (truthy (error (state w))); [discriminate|].
  destruct (truthy (capturedImage (state w))); [discriminate|].
  specialize (He eq_refl). specialize (Hc eq_refl).
  repeat split; try assumption.
  destruct (handleTakePhoto_cases encodeImage w)
    as [(video & canvas & Hvid & Hcv & Hctx) | [Hst _]].
  - exists video, canvas. repeat split; try assumption.
    rewrite (handleTakePhoto_success encodeImage w video canvas Hvid Hcv Hctx) in Hd.
    cbn zeta in Hd. cbn [state setCapturedImage capturedImage] in Hd.
    injection Hd as <-. reflexivity.
  - rewrite Hst, Hc in Hd. discriminate.
Qed.

Lemma C1_capture_from_live_view_witness :
  error (state (after liveTrace)) = None
  /\ viewState (state (after liveTrace)) = Live
  /\ exists video,
       videoRef (after liveTrace) = Some video
       /\ "data:image/jpeg;base64,DCB/GFE"
          = toDataURL demoEncoder "image/jpeg" (9 # 10)
              (captureCanvas (facingMode (state (after liveTrace))) video true).
Proof.
  destruct (C1_capture_from_live_view demoEncoder (after liveTrace)
              (after (liveTrace ++ [Click ShutterButton]))
              "data:image/jpeg;base64,DCB/GFE")
    as (He & _ & Hv & video & canvas & Hvid & _ & _ & Hd).
  - apply reachable_after. vm_compute. discriminate.
  - vm_compute. reflexivity.
  - vm_compute. reflexivity.
  - repeat split; try assumption. exists video. split; assumption.
Defined.

(** *** Confirm *)

(** C6. A click on "Use Photo" is possible only in the captured view, and it
    calls [onPhotoTaken] once, with the current [capturedImage], which is the
    still of the most recent capture; the state is left as it was. *)
Theorem C6_confirm_passes_latest_still
    (encodeImage : string -> Q -> Bitmap -> string) (w w' : World) :
  reachable encodeImage w ->
  step encodeImage w (Click UsePhotoButton) = Some w' ->
  viewState (state w) = Captured
  /\ exists d,
       capturedImage (state w) = Some d
       /\ lastStill (calls w) = Some d
       /\ calls w' = calls w ++ [OnPhotoTaken d]
       /\ state w' = state w.
Proof.
  intros Hr Hs. rewrite click_cases in Hs.
  destruct (viewState (state w)) eqn:Hv; try discriminate.
  split; [reflexivity|]. injection Hs as <-.
  rewrite viewState_cases in Hv.
  destruct (truthy (error (state w))); [discriminate|].
  destruct (truthy (capturedImage (state w))) eqn:Ht; [|discriminate].
  destruct (capturedImage (state w)) as [d|] eqn:Hd; [|discriminate].
  destruct (reachable_consistent encodeImage w Hr) as (_ & Himg & _).
  destruct (Himg d Hd) as [_ Hlast].
  exists d. unfold handleConfirm. rewrite Hd, Ht. cbn [text call calls state].
  repeat split. exact Hlast.
Qed.

Lemma C6_confirm_passes_latest_still_witness :
  viewState (state (after (liveTrace ++ [Click ShutterButton]))) = Captured
  /\ exists d,
       capturedImage (state (after (liveTrace ++ [Click ShutterButton]))) = Some d
       /\ lastStill (calls (after (liveTrace ++ [Click ShutterButton]))) = Some d
       /\ calls (after (liveTrace ++ [Click ShutterButton; Click UsePhotoButton]))
          = calls (after (liveTrace ++ [Click ShutterButton])) ++ [OnPhotoTaken d]
       /\ state (after (liveTrace ++ [Click ShutterButton; Click UsePhotoButton]))
          = state (after (liveTrace ++ [Click ShutterButton])).
Proof.
  apply (C6_confirm_passes_latest_still demoEncoder).
  - apply reachable_after. vm_compute. discriminate.
  - vm_compute. reflexivity.
Defined.

(** C10. Without a captured image [handleConfirm] does nothing, and along
    every run each call of [onPhotoTaken] carries a non-empty string that an
    earlier capture produced. *)
Theorem C10_confirm_needs_still (encodeImage : string -> Q -> Bitmap -> string) :
  (forall w, capturedImage (state w) = None -> handleConfirm w = w)
  /\ (forall w, reachable encodeImage w ->
        forall before rest d,
          calls w = before ++ OnPhotoTaken d :: rest ->
          In (ToDataURL d) before /\ d <> "").
Proof.
  split.
  - intros w H. unfold handleConfirm. rewrite H. reflexivity.
  - intros w Hr. destruct (reachable_consistent encodeImage w Hr) as (_ & _ & H).
    exact H.
Qed.

Lemma C10_confirm_needs_still_witness :
  handleConfirm (mount true) = mount true
  /\ calls (after (liveTrace ++ [Click ShutterButton; Click UsePhotoButton]))
     = calls (after liveTrace)
         ++ [ToDataURL "data:image/jpeg;base64,DCB/GFE";
             OnPhotoTaken "data:image/jpeg;base64,DCB/GFE"].
Proof.
  split.
  - apply (C10_confirm_needs_still demoEncoder). reflexivity.
  - vm_compute. reflexivity.
Defined.

(** *** Stream requests *)

Lemma C5_counterexample : ~ C5_as_stated demoEncoder.
Proof.
  intros H.
  destruct (H (mount true) 0 plainRejection (after [StreamRejected 0 plainRejection]))
    as [_ Hgeneric].
  - vm_compute. reflexivity.
  - assert (Hn : name plainRejection <> "NotAllowedError") by (cbn; discriminate).
    specialize (Hgeneric Hn). vm_compute in Hgeneric. discriminate.
Qed.

(** C5 (amended). A rejection that is an [Error] sets the error message: the
    permission message when its name is [NotAllowedError], the generic
    message for every other name, and the two differ.  A rejection that is
    not an [Error] is only logged and leaves the state as it was.  A granted
    stream is stored and clears the error message. *)
Theorem C5_failure_messages
    (encodeImage : string -> Q -> Bitmap -> string)
    (w wr wg : World) (request request' : nat) (err : Rejection) (s : MediaStream) :
  step encodeImage w (StreamRejected request err) = Some wr ->
  step encodeImage w (StreamGranted request' s) = Some wg ->
  (instanceofError err = true -> name err = "NotAllowedError" ->
   error (state wr) = Some permissionDeniedMessage)
  /\ (instanceofError err = true -> name err <> "NotAllowedError" ->
      error (state wr) = Some cameraUnavailableMessage)
  /\ (instanceofError err = false ->
      state wr = state w /\ calls wr = calls w ++ [ConsoleError])
  /\ permissionDeniedMessage <> cameraUnavailableMessage
  /\ error (state wg) = None
  /\ stream (state wg) = Some s.
Proof.
  intros Hr Hg. cbn [step] in Hr, Hg.
  destruct (request <? _); [|discriminate].
  destruct (request' <? _); [|discriminate].
  injection Hr as <-. injection Hg as <-.
  unfold onStreamError, onStream. cbn zeta.
  repeat split.
  - intros -> Hn. apply String.eqb_eq in Hn. rewrite Hn, state_commit. reflexivity.
  - intros -> Hn. apply String.eqb_neq in Hn. rewrite Hn, state_commit. reflexivity.
  - rewrite H. reflexivity.
  - rewrite H. reflexivity.
  - discriminate.
  - rewrite state_commit. reflexivity.
  - rewrite state_commit. cbn [setError stream].
    destruct (videoRef _); cbn [withVideo state]; rewrite state_commit; reflexivity.
Qed.

Lemma C5_failure_messages_witness :
  error (state (after [StreamRejected 0 {| instanceofError := true;
                                           name := "NotAllowedError" |}]))
    = Some permissionDeniedMessage
  /\ error (state (after [StreamGranted 0 frontStream])) = None.
Proof.
  destruct (C5_failure_messages demoEncoder (mount true)
              (after [StreamRejected 0 {| instanceofError := true;
                                          name := "NotAllowedError" |}])
              (after [StreamGranted 0 frontStream])
              0 0 {| instanceofError := true; name := "NotAllowedError" |} frontStream)
    as (Hperm & _ & _ & _ & Hnone & _).
  - vm_compute. reflexivity.
  - vm_compute. reflexivity.
  - split; [apply Hperm; reflexivity | exact Hnone].
Defined.

(** *** Mirroring *)

Lemma captureCanvas_same_frame (mode : FacingMode) (v1 v2 : HTMLVideoElement)
    (has2d : bool) :
  videoWidth v1 = videoWidth v2 -> videoHeight v1 = videoHeight v2 ->
  currentFrame v1 = currentFrame v2 ->
  captureCanvas mode v1 has2d = captureCanvas mode v2 has2d.
Proof.
  destruct v1 as [s1 w1 h1 f1], v2 as [s2 w2 h2 f2]. cbn. intros -> -> ->.
  reflexivity.
Qed.

(** C2. A front capture draws the frame through the matrix obtained from the
    identity by [translate(canvas.width, 0)] and then [scale(-1, 1)]; a back
    capture draws it through the identity.  For the same frame, the bitmap
    of the front capture is the horizontal mirror of the bitmap of the back
    capture, and each captured image is the data URL of its bitmap. *)
Theorem C2_front_capture_is_mirrored
    (encodeImage : string -> Q -> Bitmap -> string)
    (wf wb : World) (vf vb : HTMLVideoElement) (cf cb : HTMLCanvasElement) :
  videoRef wf = Some vf -> canvasRef wf = Some cf -> getContext cf = true ->
  videoRef wb = Some vb -> canvasRef wb = Some cb -> getContext cb = true ->
  facingMode (state wf) = user -> facingMode (state wb) = environment ->
  videoWidth vf = videoWidth vb -> videoHeight vf = videoHeight vb ->
  currentFrame vf = currentFrame vb ->
  let W := Z.of_nat (videoWidth vf) in
  let H := Z.of_nat (videoHeight vf) in
  let cleared := sized (videoWidth vf) (videoHeight vf) true in
  exists front back,
    canvasRef (handleTakePhoto encodeImage wf) = Some front
    /\ canvasRef (handleTakePhoto encodeImage wb) = Some back
    /\ front = drawImage vf 0 0 W H (scale (-1) 1 (translate W 0 cleared))
    /\ back = drawImage vf 0 0 W H cleared
    /\ ctm front = scaleM (-1) 1 (translateM W 0 identity)
    /\ ctm back = identity
    /\ bitmap front = mirror (bitmap back)
    /\ capturedImage (state (handleTakePhoto encodeImage wf))
       = Some (toDataURL encodeImage "image/jpeg" (9 # 10) front)
    /\ capturedImage (state (handleTakePhoto encodeImage wb))
       = Some (toDataURL encodeImage "image/jpeg" (9 # 10) back).
Proof.
  intros Hvf Hcf Hxf Hvb Hcb Hxb Hmf Hmb Hw Hh Hfr W H cleared.
  rewrite (handleTakePhoto_success encodeImage wf vf cf Hvf Hcf Hxf).
  rewrite (handleTakePhoto_success encodeImage wb vb cb Hvb Hcb Hxb).
  cbn zeta. cbn [canvasRef state setCapturedImage capturedImage].
  rewrite Hmf, Hmb.
  rewrite <- (captureCanvas_same_frame environment vf vb true Hw Hh Hfr).
  exists (captureCanvas user vf true), (captureCanvas environment vf true).
  repeat split.
  - unfold captureCanvas. rewrite ctm_drawImage. reflexivity.
  - unfold captureCanvas. rewrite ctm_drawImage. reflexivity.
  - apply drawImage_mirror.
Qed.

Lemma C2_front_capture_is_mirrored_witness :
  exists front back,
    canvasRef (after (liveTrace ++ [Click ShutterButton])) = Some front
    /\ canvasRef (after (liveTrace ++ [Click SwitchCameraButton;
                                        StreamGranted 0 backStream;
                                        VideoFrame 3 2 demoFrame;
                                        Click ShutterButton])) = Some back
    /\ bitmap back = [[1; 2; 3]; [4; 5; 6]]%Z
    /\ bitmap front = [[3; 2; 1]; [6; 5; 4]]%Z.
Proof.
  set (wf := after liveTrace).
  set (wb := after (liveTrace ++ [Click SwitchCameraButton; StreamGranted 0 backStream;
                                  VideoFrame 3 2 demoFrame])).
  destruct (C2_front_capture_is_mirrored demoEncoder wf wb
              demoVideo
              {| srcObject := Some backStream; videoWidth := 3; videoHeight := 2;
                 currentFrame := demoFrame |}
              (Canvas.fresh true) (Canvas.fresh true))
    as (front & back & Hf & Hb & Hfe & Hbe & _ & _ & Hm & _);
    try (vm_compute; reflexivity).
  exists front, back.
  assert (Hback : bitmap back = [[1; 2; 3]; [4; 5; 6]]%Z).
  { rewrite Hbe. vm_compute. reflexivity. }
  repeat split.
  - rewrite <- Hf. vm_compute. reflexivity.
  - rewrite <- Hb. vm_compute. reflexivity.
  - exact Hback.
  - rewrite Hm, Hback. reflexivity.
Defined.

Lemma C3_capture_native_size_jpeg_witness :
  exists canvas',
    canvasRef (handleTakePhoto demoEncoder (after liveTrace)) = Some canvas'
    /\ width canvas' = 3 /\ height canvas' = 2
    /\ capturedImage (state (handleTakePhoto demoEncoder (after liveTrace)))
       = Some "data:image/jpeg;base64,DCB/GFE".
Proof.
  destruct (C3_capture_native_size_jpeg demoEncoder (after liveTrace)
              demoVideo (Canvas.fresh true))
    as (canvas' & Hc & Hw & Hh & _ & _ & _ & _ & _ & _);
    try (vm_compute; reflexivity).
  exists canvas'. split; [exact Hc|]. split; [exact Hw|]. split; [exact Hh|].
  vm_compute. reflexivity.
Defined.

(** *** Switching cameras *)

(** The calls of one switch: the cleanup kept from the last run of the
    effect stops the stream it closed over, the new run of the effect stops
    the stream of the current render, and a stream is requested for the other
    facing mode; the new cleanup closes over the stream of the current
    render. *)
Lemma switch_sequence (encodeImage : string -> Q -> Bitmap -> string) (w w' : World) :
  step encodeImage w (Click SwitchCameraButton) = Some w' ->
  let mode := match facingMode (state w) with
              | user => environment
              | environment => user
              end in
  let constraints :=
    {| c_facingMode := mode; c_widthIdeal := 1280; c_heightIdeal := 720 |} in
  calls w' = calls w ++ stopTracks (cleanupStream w)
                     ++ stopTracks (stream (state w))
                     ++ [GetUserMedia constraints]
  /\ pending w' = pending w ++ [constraints]
  /\ cleanupStream w' = stream (state w)
  /\ stream (state w') = stream (state w)
  /\ facingMode (state w') = mode.
Proof.
  intros Hs. cbv zeta. rewrite click_cases in Hs.
  destruct (viewState (state w)); try discriminate.
  destruct (hasMultipleCameras (state w)); [|discriminate].
  injection Hs as <-. unfold handleSwitchCamera, commit.
  cbn [setFacingMode facingMode].
  assert (Hne : facingMode_eqb (facingMode (state w))
                  match facingMode (state w) with
                  | user => environment
                  | environment => user
                  end = false)
    by (destruct (facingMode (state w)); reflexivity).
  rewrite Hne.
  cbn [cameraEffect cameraCleanup call calls pending cleanupStream state stream
       facingMode setFacingMode].
  rewrite <- app_assoc. repeat split.
Qed.

(** C4. On the run [rapidSwitchTrace] the component does not stop each held
    stream exactly once.  The second switch comes while the request of the
    first is still in flight: the stream held then, [frontStream], already
    stopped by the first switch, is stopped twice more, by the kept cleanup
    and by the new run of the effect.  Both requests are then granted; the
    stream of the first, [backStream], is held until the second grant
    replaces it and is never stopped, not by the next switch and not by
    unmounting. *)
Theorem C4_rapid_switch_stops_twice_and_leaks :
  let pre := [DevicesEnumerated twoCameras; StreamGranted 0 frontStream;
              Click SwitchCameraButton] in
  run demoEncoder (mount true) rapidSwitchTrace = Some (after rapidSwitchTrace)
  /\ stream (state (after pre)) = Some frontStream
  /\ stopCount 10 (calls (after pre)) = 1
  /\ step demoEncoder (after pre) (Click SwitchCameraButton)
     = Some (after (pre ++ [Click SwitchCameraButton]))
  /\ calls (after (pre ++ [Click SwitchCameraButton]))
     = calls (after pre)
         ++ [TrackStop 10; TrackStop 10;
             GetUserMedia {| c_facingMode := user;
                             c_widthIdeal := 1280; c_heightIdeal := 720 |}]
  /\ stream (state (after (pre ++ [Click SwitchCameraButton;
                                   StreamGranted 0 backStream])))
     = Some backStream
  /\ stream (state (after rapidSwitchTrace)) = Some thirdStream
  /\ stopCount 10 (calls (after rapidSwitchTrace)) = 4
  /\ stopCount 20 (calls (after rapidSwitchTrace)) = 0
  /\ stopCount 30 (calls (after rapidSwitchTrace)) = 1
  /\ stopCount 20 (calls (unmount (after rapidSwitchTrace))) = 0.
Proof.
  cbv zeta. repeat apply conj; vm_compute; reflexivity.
Qed.

(** When a switch comes after the previous request was granted, the stream
    held at the switch is not the one the kept cleanup closed over, and the
    switch stops each of its tracks once. *)
Lemma settled_switch_stops_once :
  let pre := [DevicesEnumerated twoCameras; StreamGranted 0 frontStream;
              Click SwitchCameraButton; StreamGranted 0 backStream] in
  stream (state (after pre)) = Some backStream
  /\ calls (after (pre ++ [Click SwitchCameraButton]))
     = calls (after pre)
         ++ [TrackStop 10; TrackStop 20;
             GetUserMedia {| c_facingMode := user;
                             c_widthIdeal := 1280; c_heightIdeal := 720 |}].
Proof.
  cbv zeta. repeat apply conj; vm_compute; reflexivity.
Qed.

(** *** Retake, then capture again *)

(** The [<video>] node is not part of the captured view, so retake mounts a
    new one; no stream is bound to it until the next grant, and a capture
    taken meanwhile is of a video without size. *)
Lemma retake_mounts_unbound_video :
  videoRef (after (liveTrace ++ [Click ShutterButton])) = None
  /\ videoRef (after (liveTrace ++ [Click ShutterButton; Click RetakeButton]))
     = Some freshVideo
  /\ stream (state (after (liveTrace ++ [Click ShutterButton; Click RetakeButton])))
     = Some frontStream
  /\ capturedImage
       (state (after (liveTrace ++ [Click ShutterButton; Click RetakeButton;
                                    Click ShutterButton])))
     = Some "data:,".
Proof. repeat apply conj; vm_compute; reflexivity. Qed.

(** ** The rest of the component *)

(** *** Events, one at a time *)

Lemma handleRetake_eq (w : World) :
  handleRetake w =
    {| state := setCapturedImage None (state w);
       videoRef := reconcileVideo (setCapturedImage None (state w)) (videoRef w);
       canvasRef := canvasRef w; cleanupStream := cleanupStream w;
       pending := pending w; enumerating := enumerating w; calls := calls w |}.
Proof. unfold handleRetake. apply commit_same_facing. reflexivity. Qed.

Lemma handleTakePhoto_eq (encodeImage : string -> Q -> Bitmap -> string) (w : World) :
  handleTakePhoto encodeImage w =
    match videoRef w, canvasRef w with
    | Some video, Some canvas =>
        if context2d canvas then
          let cv := captureCanvas (facingMode (state w)) video true in
          let dataUrl := toDataURL encodeImage "image/jpeg" (9 # 10) cv in
          {| state := setCapturedImage (Some dataUrl) (state w);
             videoRef := reconcileVideo (setCapturedImage (Some dataUrl) (state w))
                                        (Some video);
             canvasRef := Some cv;
             cleanupStream := cleanupStream w; pending := pending w;
             enumerating := enumerating w;
             calls := calls w ++ [ToDataURL dataUrl] |}
        else withCanvas (sized (videoWidth video) (videoHeight video) false) w
    | _, _ => w
    end.
Proof.
  destruct (videoRef w) as [video|] eqn:Hv;
    [|unfold handleTakePhoto; rewrite Hv; reflexivity].
  destruct (canvasRef w) as [canvas|] eqn:Hc;
    [|unfold handleTakePhoto; rewrite Hv, Hc; reflexivity].
  destruct (context2d canvas) eqn:Hx.
  - apply (handleTakePhoto_success encodeImage w video canvas Hv Hc Hx).
  - unfold handleTakePhoto. rewrite Hv, Hc, setHeight_setWidth.
    unfold getContext. cbn [context2d sized]. rewrite Hx. reflexivity.
Qed.

Lemma handleSwitchCamera_eq (w : World) :
  handleSwitchCamera w =
    let s' := setFacingMode otherMode (state w) in
    {| state := s'; videoRef := reconcileVideo s' (videoRef w);
       canvasRef := canvasRef w;
       cleanupStream := stream (state w);
       pending := pending w ++ [constraintsFor (otherMode (facingMode (state w)))];
       enumerating := enumerating w;
       calls := calls w ++ stopTracks (cleanupStream w)
                        ++ stopTracks (stream (state w))
                        ++ [GetUserMedia (constraintsFor (otherMode (facingMode (state w))))] |}.
Proof.
  unfold handleSwitchCamera, commit. fold otherMode.
  cbn [setFacingMode facingMode].
  assert (Hne : facingMode_eqb (facingMode (state w)) (otherMode (facingMode (state w)))
                = false) by (destruct (facingMode (state w)); reflexivity).
  rewrite Hne. unfold cameraEffect, cameraCleanup, call, constraintsFor.
  cbn [calls pending cleanupStream state stream facingMode setFacingMode
       videoRef canvasRef enumerating].
  rewrite <- app_assoc. reflexivity.
Qed.

Lemma onDevices_eq (devices : list MediaDeviceInfo) (w : World) :
  onDevices devices w =
    if 1 <? List.length (filter (fun device => String.eqb (kind device) "videoinput")
                                devices)
    then {| state := setHasMultipleCameras true (state w);
            videoRef := reconcileVideo (setHasMultipleCameras true (state w)) (videoRef w);
            canvasRef := canvasRef w; cleanupStream := cleanupStream w;
            pending := pending w; enumerating := enumerating w; calls := calls w |}
    else w.
Proof.
  unfold onDevices. destruct (1 <? _); [|reflexivity].
  apply commit_same_facing. reflexivity.
Qed.

Lemma onStream_eq (s : MediaStream) (w : World) :
  onStream s w =
    let s1 := setStream (Some s) (state w) in
    let s2 := setError None s1 in
    {| state := s2;
       videoRef := reconcileVideo s2
                     (option_map (withSrcObject s) (reconcileVideo s1 (videoRef w)));
       canvasRef := canvasRef w; cleanupStream := cleanupStream w;
       pending := pending w; enumerating := enumerating w; calls := calls w |}.
Proof.
  unfold onStream. cbn zeta.
  rewrite (commit_same_facing (setStream (Some s) (state w)) w) by reflexivity.
  cbn [videoRef].
  destruct (reconcileVideo (setStream (Some s) (state w)) (videoRef w)) as [el|];
    cbn [withVideo state option_map];
    rewrite commit_same_facing by reflexivity; reflexivity.
Qed.

Lemma onStreamError_eq (err : Rejection) (w : World) :
  onStreamError err w =
    if instanceofError err then
      let s' := setError (Some (if String.eqb (name err) "NotAllowedError"
                                then permissionDeniedMessage
                                else cameraUnavailableMessage)) (state w) in
      {| state := s'; videoRef := reconcileVideo s' (videoRef w);
         canvasRef := canvasRef w; cleanupStream := cleanupStream w;
         pending := pending w; enumerating := enumerating w;
         calls := calls w ++ [ConsoleError] |}
    else call [ConsoleError] w.
Proof.
  unfold onStreamError. cbn zeta. destruct (instanceofError err); [|reflexivity].
  destruct (String.eqb (name err) "NotAllowedError");
    rewrite commit_same_facing by reflexivity; reflexivity.
Qed.

(** A property kept by every event holds along every run. *)
Lemma run_invariant (encodeImage : string -> Q -> Bitmap -> string)
    (P : World -> Prop) :
  (forall w ev w', P w -> step encodeImage w ev = Some w' -> P w') ->
  forall evs w0 w, P w0 -> run encodeImage w0 evs = Some w -> P w.
Proof.
  intros Hstep. induction evs as [|ev evs IH]; intros w0 w H0 Hrun; cbn in Hrun.
  - injection Hrun as <-. exact H0.
  - destruct (step encodeImage w0 ev) as [w1|] eqn:Hs; [|discriminate].
    apply (IH w1 w); [|exact Hrun]. exact (Hstep w0 ev w1 H0 Hs).
Qed.

(** Unfolds one event into the world it leads to. *)
Ltac step_cases Hs w :=
  match type of Hs with
  | step _ _ ?ev = Some _ =>
      destruct ev as [button|devices|request s|request err|vw vh frame];
      [ rewrite click_cases in Hs;
        let Hv := fresh "Hview" in
        destruct (viewState (state w)) eqn:Hv; destruct button; try discriminate Hs;
        [ rewrite handleTakePhoto_eq in Hs
        | destruct (hasMultipleCameras (state w)) eqn:?; [|discriminate Hs];
          rewrite handleSwitchCamera_eq in Hs
        | unfold onClose in Hs
        | rewrite handleRetake_eq in Hs
        | unfold handleConfirm in Hs
        | unfold onClose in Hs ]
      | cbn [step] in Hs; destruct (enumerating w) eqn:?; [|discriminate Hs];
        rewrite onDevices_eq in Hs
      | cbn [step] in Hs; destruct (request <? _) eqn:?; [|discriminate Hs];
        rewrite onStream_eq in Hs
      | cbn [step] in Hs; destruct (request <? _) eqn:?; [|discriminate Hs];
        rewrite onStreamError_eq in Hs
      | cbn [step] in Hs;
        let el := fresh "el" in
        destruct (videoRef w) as [el|] eqn:?; [|discriminate Hs];
        destruct (srcObject el) eqn:?; [|discriminate Hs];
        destruct ((0 <? vw) && (0 <? vh)) eqn:?; [|discriminate Hs] ];
      injection Hs as <-
  end.

(** *** Buttons *)

(** X1. Which buttons a view offers, and what each is bound to: go-back only
    in the error view, retake and confirm only in the captured view, shutter
    and close only in the live view, switch only in the live view of a
    device with several cameras.  In particular the error view offers
    neither shutter nor switch. *)
Theorem buttons_by_view (s : State) (b : Button) :
  (onClick b (controls (render s)) <> None <->
   match b with
   | GoBackButton => viewState s = Error
   | RetakeButton | UsePhotoButton => viewState s = Captured
   | ShutterButton | CloseButton => viewState s = Live
   | SwitchCameraButton => viewState s = Live /\ hasMultipleCameras s = true
   end)
  /\ (forall h, onClick b (controls (render s)) = Some h ->
        h = match b with
            | GoBackButton | CloseButton => HClose
            | RetakeButton => HRetake
            | UsePhotoButton => HConfirm
            | ShutterButton => HTakePhoto
            | SwitchCameraButton => HSwitchCamera
            end).
Proof.
  rewrite controls_cases.
  destruct (viewState s), b, (hasMultipleCameras s); cbn;
    (split; [split; [intros H; try (exfalso; apply H; reflexivity); auto
                    | intros H; try discriminate; try (destruct H; discriminate);
                      try congruence]
            | intros h H; try discriminate; congruence]).
Qed.

(** *** What each event may change *)

Ltac split_ifs :=
  repeat match goal with
         | |- context [match ?x with _ => _ end] => destruct x eqn:?
         end.

(** X2. Every state cell has its own writers: [stream] changes only when a
    request is granted, and then to the granted stream, never back to null;
    [capturedImage] only on shutter and retake; [facingMode] only on switch;
    [error] only when a request settles; [hasMultipleCameras] only when the
    device query settles. *)
Theorem cells_have_their_writers
    (encodeImage : string -> Q -> Bitmap -> string) (w w' : World) (ev : Event) :
  step encodeImage w ev = Some w' ->
  (stream (state w') <> stream (state w) ->
   exists request s, ev = StreamGranted request s /\ stream (state w') = Some s)
  /\ (capturedImage (state w') <> capturedImage (state w) ->
      ev = Click ShutterButton \/ ev = Click RetakeButton)
  /\ (facingMode (state w') <> facingMode (state w) -> ev = Click SwitchCameraButton)
  /\ (error (state w') <> error (state w) ->
      (exists request s, ev = StreamGranted request s)
      \/ (exists request err, ev = StreamRejected request err))
  /\ (hasMultipleCameras (state w') <> hasMultipleCameras (state w) ->
      exists devices, ev = DevicesEnumerated devices).
Proof.
  intros Hs. step_cases Hs w; cbn zeta; split_ifs;
    cbn [state call withCanvas withVideo withEnumerating settle withPending
         setCapturedImage setFacingMode setStream setError setHasMultipleCameras
         stream capturedImage facingMode error hasMultipleCameras];
    repeat apply conj; intros Hne;
    try (exfalso; apply Hne; reflexivity); try contradiction; eauto.
Qed.

Lemma cells_have_their_writers_witness :
  stream (state (after [StreamGranted 0 frontStream])) = Some frontStream.
Proof.
  destruct (cells_have_their_writers demoEncoder (mount true)
              (after [StreamGranted 0 frontStream]) (StreamGranted 0 frontStream))
    as (Hstream & _).
  - vm_compute. reflexivity.
  - destruct Hstream as (request & s & Hev & Hs).
    + vm_compute. discriminate.
    + injection Hev as _ <-. exact Hs.
Defined.

Lemma stopCount_app (t : Track) (cs ext : list Call) :
  stopCount t (cs ++ ext) = stopCount t cs + stopCount t ext.
Proof. unfold stopCount. rewrite filter_app. apply length_app. Qed.

Lemma stopCount_silent (t : Track) (ext : list Call) :
  silent ext -> stopCount t ext = 0.
Proof.
  unfold stopCount. induction ext as [|c ext IH]; intros Hq; [reflexivity|].
  cbn [filter]. pose proof (Hq c (or_introl eq_refl)) as Hc.
  destruct c; try contradiction; cbn [call_is_stop];
    apply IH; intros c' Hc'; apply Hq; right; exact Hc'.
Qed.

Lemma lastRequest_app (cs ext : list Call) :
  lastRequest (cs ++ ext) =
    match lastRequest ext with
    | Some k => Some k
    | None => lastRequest cs
    end.
Proof.
  induction cs as [|c cs IH]; cbn [app lastRequest].
  - destruct (lastRequest ext); reflexivity.
  - rewrite IH. destruct (lastRequest ext); reflexivity.
Qed.

Lemma lastRequest_silent (ext : list Call) : silent ext -> lastRequest ext = None.
Proof.
  induction ext as [|c ext IH]; intros Hq; [reflexivity|].
  cbn [lastRequest]. rewrite IH by (intros c' Hc'; apply Hq; right; exact Hc').
  specialize (Hq c (or_introl eq_refl)). destruct c; try reflexivity; contradiction.
Qed.

Ltac silent_ext :=
  eexists; split;
  [ first [reflexivity | symmetry; apply app_nil_r]
  | let c := fresh "c" in
    let H := fresh "H" in
    intros c H; repeat (destruct H as [<-|H]; [exact I|]); destruct H ].

(** Apart from a switch, no event runs the effect or its cleanup. *)
Lemma step_silent (encodeImage : string -> Q -> Bitmap -> string)
    (w w' : World) (ev : Event) :
  step encodeImage w ev = Some w' -> isSwitch ev = false ->
  cleanupStream w' = cleanupStream w
  /\ facingMode (state w') = facingMode (state w)
  /\ (pending w' = pending w
      \/ exists request, pending w' = firstn request (pending w)
                                      ++ skipn (S request) (pending w))
  /\ exists ext, calls w' = calls w ++ ext /\ silent ext.
Proof.
  intros Hs Hsw. step_cases Hs w; try discriminate; cbn zeta; split_ifs;
    cbn [state call withCanvas withVideo withEnumerating settle withPending
         setCapturedImage setStream setError setHasMultipleCameras
         facingMode cleanupStream calls pending];
    (split; [reflexivity|]); (split; [reflexivity|]);
    (split; [first [left; reflexivity | right; eexists; reflexivity]|]);
    silent_ext.
Qed.

(** X3. Tracks are stopped and streams requested only by a switch: any other
    event (a capture, retake, confirm, close, a grant, a rejection that shows
    the error view, a settled device query) leaves every stop count, the
    last request and the kept cleanup as they were. *)
Theorem only_switch_runs_the_effect
    (encodeImage : string -> Q -> Bitmap -> string) (w w' : World) (ev : Event) :
  step encodeImage w ev = Some w' ->
  ev <> Click SwitchCameraButton ->
  (forall t, stopCount t (calls w') = stopCount t (calls w))
  /\ lastRequest (calls w') = lastRequest (calls w)
  /\ cleanupStream w' = cleanupStream w.
Proof.
  intros Hs Hne.
  assert (Hsw : isSwitch ev = false).
  { destruct ev as [[]| | | |]; try reflexivity. contradiction Hne. reflexivity. }
  destruct (step_silent encodeImage w w' ev Hs Hsw) as (Hc & _ & _ & ext & -> & Hq).
  repeat apply conj.
  - intros t. rewrite stopCount_app, (stopCount_silent t ext Hq). apply Nat.add_0_r.
  - rewrite lastRequest_app, (lastRequest_silent ext Hq). reflexivity.
  - exact Hc.
Qed.

Lemma only_switch_runs_the_effect_witness :
  (forall t,
      stopCount t (calls (after [DevicesEnumerated twoCameras;
                                 StreamGranted 0 frontStream;
                                 Click SwitchCameraButton;
                                 StreamRejected 0 plainRejection]))
      = stopCount t (calls (after [DevicesEnumerated twoCameras;
                                   StreamGranted 0 frontStream;
                                   Click SwitchCameraButton])))
  /\ cleanupStream (after [DevicesEnumerated twoCameras;
                           StreamGranted 0 frontStream;
                           Click SwitchCameraButton;
                           StreamRejected 0 plainRejection])
     = Some frontStream.
Proof.
  destruct (only_switch_runs_the_effect demoEncoder
              (after [DevicesEnumerated twoCameras; StreamGranted 0 frontStream;
                      Click SwitchCameraButton])
              (after [DevicesEnumerated twoCameras; StreamGranted 0 frontStream;
                      Click SwitchCameraButton; StreamRejected 0 plainRejection])
              (StreamRejected 0 plainRejection)) as (Hstop & _ & Hclean).
  - vm_compute. reflexivity.
  - discriminate.
  - split; [exact Hstop|]. rewrite Hclean. vm_compute. reflexivity.
Defined.

(** *** Stream requests along a run *)

Lemma viewState_setFacingMode (upd : FacingMode -> FacingMode) (s : State) :
  viewState (setFacingMode upd s) = viewState s.
Proof. rewrite !viewState_cases. reflexivity. Qed.

(** X4. A switch can always be followed by another one, also before its
    request settles.  The pair restores the facing mode and leaves two more
    requests in flight, for the other mode and then for the original one;
    the stream held throughout has its tracks stopped by the first switch
    and twice more by the second. *)
Theorem switch_twice
    (encodeImage : string -> Q -> Bitmap -> string) (w w1 : World) :
  step encodeImage w (Click SwitchCameraButton) = Some w1 ->
  exists w2,
    step encodeImage w1 (Click SwitchCameraButton) = Some w2
    /\ facingMode (state w1) = otherMode (facingMode (state w))
    /\ facingMode (state w2) = facingMode (state w)
    /\ stream (state w2) = stream (state w)
    /\ pending w2 = pending w ++ [constraintsFor (otherMode (facingMode (state w)));
                                  constraintsFor (facingMode (state w))]
    /\ calls w2 = calls w
                    ++ stopTracks (cleanupStream w)
                    ++ stopTracks (stream (state w))
                    ++ [GetUserMedia (constraintsFor (otherMode (facingMode (state w))))]
                    ++ stopTracks (stream (state w))
                    ++ stopTracks (stream (state w))
                    ++ [GetUserMedia (constraintsFor (facingMode (state w)))].
Proof.
  intros Hs. rewrite click_cases in Hs.
  destruct (viewState (state w)) eqn:Hv; try discriminate.
  destruct (hasMultipleCameras (state w)) eqn:Hm; [|discriminate].
  injection Hs as <-. rewrite handleSwitchCamera_eq. cbn zeta.
  eexists. split.
  - rewrite click_cases. cbn [state]. rewrite viewState_setFacingMode, Hv.
    cbn [setFacingMode hasMultipleCameras]. rewrite Hm. reflexivity.
  - rewrite handleSwitchCamera_eq. cbn zeta.
    cbn [state setFacingMode facingMode stream pending calls cleanupStream].
    assert (Hoo : otherMode (otherMode (facingMode (state w))) = facingMode (state w))
      by (destruct (facingMode (state w)); reflexivity).
    rewrite Hoo. repeat apply conj; try reflexivity.
    + rewrite <- app_assoc. reflexivity.
    + rewrite <- !app_assoc. reflexivity.
Qed.

Lemma switch_twice_witness :
  exists w2,
    step demoEncoder (after [DevicesEnumerated twoCameras; Click SwitchCameraButton])
         (Click SwitchCameraButton) = Some w2
    /\ facingMode (state w2) = user
    /\ List.length (pending w2) = 3.
Proof.
  destruct (switch_twice demoEncoder (after [DevicesEnumerated twoCameras])
              (after [DevicesEnumerated twoCameras; Click SwitchCameraButton]))
    as (w2 & Hs & _ & Hm & _ & Hp & _).
  - vm_compute. reflexivity.
  - exists w2. split; [exact Hs|]. split.
    + rewrite Hm. vm_compute. reflexivity.
    + rewrite Hp. vm_compute. reflexivity.
Defined.

(** X5. Along every run the most recent stream request asks for the current
    facing mode, and every request ever made, settled or in flight, asks for
    an ideal size of 1280 by 720. *)
Theorem requests_follow_facing_mode
    (encodeImage : string -> Q -> Bitmap -> string) (w : World) :
  reachable encodeImage w ->
  lastRequest (calls w) = Some (constraintsFor (facingMode (state w)))
  /\ (forall k, In (GetUserMedia k) (calls w) ->
                c_widthIdeal k = 1280 /\ c_heightIdeal k = 720)
  /\ (forall k, In k (pending w) -> c_widthIdeal k = 1280 /\ c_heightIdeal k = 720).
Proof.
  intros Hr. pattern w. apply (reachable_ind encodeImage); [ | | exact Hr]; clear w Hr.
  - intros has2d. repeat apply conj.
    + reflexivity.
    + intros k [H|[H|[]]]; try discriminate. injection H as <-. split; reflexivity.
    + intros k [<-|[]]. split; reflexivity.
  - intros w0 ev w1 _ (Hlast & Hcalls & Hpend) Hs.
    destruct (isSwitch ev) eqn:Hsw.
    + destruct ev as [[]| | | |]; try discriminate.
      rewrite click_cases in Hs.
      destruct (viewState (state w0)); try discriminate.
      destruct (hasMultipleCameras (state w0)); [|discriminate].
      injection Hs as <-. rewrite handleSwitchCamera_eq. cbn zeta.
      cbn [state calls pending setFacingMode facingMode].
      repeat apply conj.
      * rewrite !lastRequest_app. reflexivity.
      * intros k Hk. rewrite !in_app_iff in Hk.
        destruct Hk as [Hk|[Hk|[Hk|Hk]]].
        -- apply Hcalls. exact Hk.
        -- destruct (cleanupStream w0); cbn in Hk; [|destruct Hk].
           apply in_map_iff in Hk. destruct Hk as (t & Ht & _). discriminate.
        -- destruct (stream (state w0)); cbn in Hk; [|destruct Hk].
           apply in_map_iff in Hk. destruct Hk as (t & Ht & _). discriminate.
        -- destruct Hk as [Hk|[]]. injection Hk as <-. split; reflexivity.
      * intros k Hk. apply in_app_or in Hk. destruct Hk as [Hk|[<-|[]]].
        -- apply Hpend. exact Hk.
        -- split; reflexivity.
    + destruct (step_silent encodeImage w0 w1 ev Hs Hsw)
        as (_ & Hm & Hp & ext & Hc & Hq).
      rewrite Hc, Hm. repeat apply conj.
      * rewrite lastRequest_app, (lastRequest_silent ext Hq). exact Hlast.
      * intros k Hk. apply in_app_or in Hk. destruct Hk as [Hk|Hk].
        -- apply Hcalls. exact Hk.
        -- destruct (Hq _ Hk).
      * intros k Hk. apply Hpend.
        destruct Hp as [Hp | (request & Hp)]; rewrite Hp in Hk; [exact Hk|].
        apply in_app_or in Hk. destruct Hk as [Hk|Hk].
        -- rewrite <- (firstn_skipn request (pending w0)).
           apply in_or_app. left. exact Hk.
        -- rewrite <- (firstn_skipn (S request) (pending w0)).
           apply in_or_app. right. exact Hk.
Qed.

Lemma requests_follow_facing_mode_witness :
  lastRequest (calls (after rapidSwitchTrace)) = Some (constraintsFor environment).
Proof.
  destruct (requests_follow_facing_mode demoEncoder (after rapidSwitchTrace))
    as (Hlast & _).
  - apply reachable_after. vm_compute. discriminate.
  - rewrite Hlast. vm_compute. reflexivity.
Defined.

(** *** Releasing the stream *)

Lemma calls_unmount (w : World) :
  calls (unmount w) = calls w ++ stopTracks (cleanupStream w).
Proof. reflexivity. Qed.

(** X6. In a session without a camera switch no track is ever stopped, and
    unmounting stops none either: the cleanup kept from the mount closes
    over the null stream of the first render, so a stream granted since
    stays running. *)
Theorem no_switch_no_stop
    (encodeImage : string -> Q -> Bitmap -> string)
    (has2d : bool) (evs : list Event) (w : World) :
  run encodeImage (mount has2d) evs = Some w ->
  forallb (fun ev => negb (isSwitch ev)) evs = true ->
  cleanupStream w = None
  /\ (forall t, stopCount t (calls w) = 0)
  /\ (forall t, stopCount t (calls (unmount w)) = 0).
Proof.
  assert (G : forall evs w0,
             cleanupStream w0 = None -> (forall t, stopCount t (calls w0) = 0) ->
             run encodeImage w0 evs = Some w ->
             forallb (fun ev => negb (isSwitch ev)) evs = true ->
             cleanupStream w = None /\ (forall t, stopCount t (calls w) = 0)).
  { clear evs. induction evs as [|ev evs IH]; intros w0 Hc Hz Hrun Hall; cbn in Hrun.
    - injection Hrun as <-. split; assumption.
    - destruct (step encodeImage w0 ev) as [w1|] eqn:Hs; [|discriminate].
      cbn [forallb] in Hall. apply andb_prop in Hall. destruct Hall as [Hev Hall].
      apply negb_true_iff in Hev.
      destruct (step_silent encodeImage w0 w1 ev Hs Hev) as (Hc1 & _ & _ & ext & Hx & Hq).
      apply (IH w1); try assumption.
      + rewrite Hc1. exact Hc.
      + intros t. rewrite Hx, stopCount_app, Hz, (stopCount_silent t ext Hq).
        reflexivity. }
  intros Hrun Hall.
  destruct (G evs (mount has2d) eq_refl (fun t => eq_refl) Hrun Hall) as [Hc Hz].
  repeat apply conj; try assumption.
  intros t. rewrite calls_unmount, Hc. cbn [stopTracks]. rewrite app_nil_r. apply Hz.
Qed.

Lemma no_switch_no_stop_witness :
  stream (state (after liveTrace)) = Some frontStream
  /\ stopCount 10 (calls (unmount (after liveTrace))) = 0.
Proof.
  split; [vm_compute; reflexivity|].
  apply (no_switch_no_stop demoEncoder true liveTrace (after liveTrace)).
  - vm_compute. reflexivity.
  - reflexivity.
Defined.

(** X7. After a switch and the grant of its request, unmounting stops the
    tracks of the stream that was held at the switch, which the switch had
    already stopped, and not those of the stream just granted. *)
Theorem unmount_after_switch_stops_old_stream
    (encodeImage : string -> Q -> Bitmap -> string)
    (w w1 w2 : World) (request : nat) (s : MediaStream) :
  step encodeImage w (Click SwitchCameraButton) = Some w1 ->
  step encodeImage w1 (StreamGranted request s) = Some w2 ->
  stream (state w2) = Some s
  /\ calls w1 = calls w ++ stopTracks (cleanupStream w)
                        ++ stopTracks (stream (state w))
                        ++ [GetUserMedia (constraintsFor (otherMode (facingMode (state w))))]
  /\ calls (unmount w2) = calls w1 ++ stopTracks (stream (state w)).
Proof.
  intros Hs1 Hs2. rewrite click_cases in Hs1.
  destruct (viewState (state w)); try discriminate.
  destruct (hasMultipleCameras (state w)); [|discriminate].
  injection Hs1 as <-. cbn [step] in Hs2.
  destruct (request <? _); [|discriminate]. injection Hs2 as <-.
  rewrite calls_unmount, onStream_eq, handleSwitchCamera_eq. cbn zeta.
  cbn [state calls cleanupStream settle withPending setError setStream stream].
  repeat apply conj; reflexivity.
Qed.

Lemma unmount_after_switch_stops_old_stream_witness :
  stream (state (after [DevicesEnumerated twoCameras; StreamGranted 0 frontStream;
                        Click SwitchCameraButton; StreamGranted 0 backStream]))
    = Some backStream
  /\ stopCount 10 (calls (unmount (after [DevicesEnumerated twoCameras;
                                          StreamGranted 0 frontStream;
                                          Click SwitchCameraButton;
                                          StreamGranted 0 backStream]))) = 2
  /\ stopCount 20 (calls (unmount (after [DevicesEnumerated twoCameras;
                                          StreamGranted 0 frontStream;
                                          Click SwitchCameraButton;
                                          StreamGranted 0 backStream]))) = 0.
Proof.
  destruct (unmount_after_switch_stops_old_stream demoEncoder
              (after [DevicesEnumerated twoCameras; StreamGranted 0 frontStream])
              (after [DevicesEnumerated twoCameras; StreamGranted 0 frontStream;
                      Click SwitchCameraButton])
              (after [DevicesEnumerated twoCameras; StreamGranted 0 frontStream;
                      Click SwitchCameraButton; StreamGranted 0 backStream])
              0 backStream) as (Hs & _ & Hu).
  - vm_compute. reflexivity.
  - vm_compute. reflexivity.
  - split; [exact Hs|]. rewrite Hu. split; vm_compute; reflexivity.
Defined.

(** *** The device query *)

Lemma videoInputs_count (devices : list MediaDeviceInfo) :
  List.length (filter (fun device => String.eqb (kind device) "videoinput") devices)
  = videoInputCount devices.
Proof.
  unfold videoInputCount. induction devices as [|dev devices IH]; [reflexivity|].
  cbn [filter map count_occ].
  destruct (String.eqb_spec (kind dev) "videoinput") as [E|E];
    destruct (string_dec (kind dev) "videoinput") as [E'|E']; try contradiction;
    cbn [List.length]; rewrite IH; reflexivity.
Qed.

(** X8. When the device query settles, the switch is enabled exactly if the
    list holds at least two devices of kind [videoinput] (or was enabled
    already); devices of other kinds do not count, the other state cells
    are untouched and nothing is called. *)
Theorem devices_enable_switch
    (encodeImage : string -> Q -> Bitmap -> string)
    (w w' : World) (devices : list MediaDeviceInfo) :
  step encodeImage w (DevicesEnumerated devices) = Some w' ->
  (hasMultipleCameras (state w') = true <->
   hasMultipleCameras (state w) = true \/ 2 <= videoInputCount devices)
  /\ stream (state w') = stream (state w)
  /\ capturedImage (state w') = capturedImage (state w)
  /\ facingMode (state w') = facingMode (state w)
  /\ error (state w') = error (state w)
  /\ calls w' = calls w
  /\ enumerating w' = false.
Proof.
  intros Hs. cbn [step] in Hs. destruct (enumerating w); [|discriminate].
  injection Hs as <-. rewrite onDevices_eq, videoInputs_count.
  destruct (Nat.ltb_spec 1 (videoInputCount devices)) as [Hn|Hn];
    cbn [state calls enumerating withEnumerating setHasMultipleCameras
         stream capturedImage facingMode error hasMultipleCameras];
    (split; [split; intros H | repeat apply conj; reflexivity]).
  - right. lia.
  - reflexivity.
  - left. exact H.
  - destruct H as [H|H]; [exact H | lia].
Qed.

Lemma devices_enable_switch_witness :
  hasMultipleCameras (state (after [DevicesEnumerated twoCameras])) = true.
Proof.
  apply (devices_enable_switch demoEncoder (mount true)
           (after [DevicesEnumerated twoCameras]) twoCameras).
  - vm_compute. reflexivity.
  - right. vm_compute. lia.
Defined.

(** X9. The multi-camera flag is computed once: it is false while the device
    query is in flight, and once the query has settled no event changes it
    or starts another query. *)
Theorem camera_flag_computed_once
    (encodeImage : string -> Q -> Bitmap -> string) (w w' : World) (ev : Event) :
  reachable encodeImage w ->
  step encodeImage w ev = Some w' ->
  (enumerating w = true -> hasMultipleCameras (state w) = false)
  /\ (enumerating w = false ->
      hasMultipleCameras (state w') = hasMultipleCameras (state w)
      /\ enumerating w' = false).
Proof.
  assert (Hframe : forall w0 ev0 w1,
             step encodeImage w0 ev0 = Some w1 ->
             (enumerating w1 = enumerating w0
              /\ hasMultipleCameras (state w1) = hasMultipleCameras (state w0))
             \/ (enumerating w0 = true /\ enumerating w1 = false)).
  { intros w0 ev0 w1 Hs. step_cases Hs w0; cbn zeta; split_ifs;
      cbn [state call withCanvas withVideo withEnumerating settle withPending
           setCapturedImage setFacingMode setStream setError setHasMultipleCameras
           hasMultipleCameras enumerating];
      first [left; split; congruence | right; split; reflexivity]. }
  intros Hr Hs. split.
  - clear Hs. pattern w. apply (reachable_ind encodeImage); [ | | exact Hr].
    + intros has2d _. reflexivity.
    + intros w0 ev0 w1 _ IH Hs0 He.
      destruct (Hframe w0 ev0 w1 Hs0) as [[H1 H2] | [_ H2]].
      * rewrite H2. apply IH. rewrite <- H1. exact He.
      * rewrite H2 in He. discriminate.
  - intros He. destruct (Hframe w ev w' Hs) as [[H1 H2] | [H1 _]].
    + split; [exact H2 | rewrite H1; exact He].
    + rewrite H1 in He. discriminate.
Qed.

Lemma camera_flag_computed_once_witness :
  hasMultipleCameras (state (after [DevicesEnumerated twoCameras;
                                    StreamGranted 0 frontStream]))
  = hasMultipleCameras (state (after [DevicesEnumerated twoCameras])).
Proof.
  apply (camera_flag_computed_once demoEncoder
           (after [DevicesEnumerated twoCameras])
           (after [DevicesEnumerated twoCameras; StreamGranted 0 frontStream])
           (StreamGranted 0 frontStream)).
  - apply reachable_after. vm_compute. discriminate.
  - vm_compute. reflexivity.
  - vm_compute. reflexivity.
Defined.

(** *** The refs along a run *)

Lemma reconcile_follows (s : State) (v : option HTMLVideoElement) :
  (viewState s = Live -> reconcileVideo s v <> None)
  /\ (viewState s <> Live -> reconcileVideo s v = None).
Proof.
  unfold viewState, reconcileVideo.
  destruct (panel (render s)), v; split; intros H; try reflexivity;
    try discriminate; contradiction H; reflexivity.
Qed.

Lemma reconcile_cases (s : State) (v : option HTMLVideoElement) (el : HTMLVideoElement) :
  reconcileVideo s v = Some el -> v = Some el \/ (v = None /\ el = freshVideo).
Proof.
  unfold reconcileVideo. destruct (panel (render s)); try discriminate.
  destruct v; intros [= <-]; [left | right; split]; reflexivity.
Qed.

Lemma context2d_captureCanvas mode video has2d :
  context2d (captureCanvas mode video has2d) = has2d.
Proof.
  unfold captureCanvas, drawImage.
  destruct (_ || _); destruct mode; reflexivity.
Qed.

Lemma viewState_same_display (s s' : State) :
  error s' = error s -> capturedImage s' = capturedImage s ->
  viewState s' = viewState s.
Proof. intros He Hc. rewrite !viewState_cases, He, Hc. reflexivity. Qed.

Lemma refsFollowView_mount (has2d : bool) : refsFollowView has2d (mount has2d).
Proof.
  repeat apply conj.
  - intros _. discriminate.
  - intros H. contradiction H. reflexivity.
  - eexists. split; reflexivity.
Qed.

Lemma refsFollowView_step (encodeImage : string -> Q -> Bitmap -> string)
    (has2d : bool) (w w' : World) (ev : Event) :
  refsFollowView has2d w -> step encodeImage w ev = Some w' ->
  refsFollowView has2d w'.
Proof.
  intros (HL & HN & cv & Hcv & Hctx) Hs. unfold refsFollowView.
  step_cases Hs w; cbn zeta; split_ifs;
    cbn [state videoRef canvasRef call withCanvas withVideo withEnumerating
         settle withPending];
    try match goal with
        | Hv : viewState (state w) = _ |- _ => rewrite ?Hv
        end;
    (split; [|split]);
    try apply reconcile_follows;
    try (intros; discriminate);
    try (eexists; split; [eassumption | congruence]);
    try (eexists; split;
         [reflexivity | rewrite ?context2d_captureCanvas; cbn; congruence]);
    try assumption;
    try congruence.
  all: try (intros H; exfalso; apply H; congruence).
  all: try (intros H; specialize (HN H); congruence).
  all: try (intros H; exfalso; apply (HL H); reflexivity).
Qed.

Lemma refsFollowView_run (encodeImage : string -> Q -> Bitmap -> string)
    (has2d : bool) (evs : list Event) (w : World) :
  run encodeImage (mount has2d) evs = Some w -> refsFollowView has2d w.
Proof.
  apply (run_invariant encodeImage (refsFollowView has2d)).
  - intros w0 ev w1. apply refsFollowView_step.
  - apply refsFollowView_mount.
Qed.

(** *** More on capture *)

Lemma viewState_captured (s : State) (d : string) :
  viewState s = Live -> d <> "" ->
  viewState (setCapturedImage (Some d) s) = Captured.
Proof.
  intros Hv Hd. rewrite viewState_cases in *. cbn [setCapturedImage error capturedImage].
  destruct (truthy (error s)); [discriminate|].
  rewrite (truthy_nonempty d Hd). reflexivity.
Qed.

(** X10. With a 2D context, the shutter of the live view always works: the
    click stores a non-empty data URL as the captured image, logs the one
    [toDataURL] call that produced it, moves the view to captured and
    detaches the video element. *)
Theorem shutter_always_captures
    (encodeImage : string -> Q -> Bitmap -> string) (evs : list Event) (w : World) :
  run encodeImage (mount true) evs = Some w ->
  viewState (state w) = Live ->
  exists w' d,
    step encodeImage w (Click ShutterButton) = Some w'
    /\ capturedImage (state w') = Some d
    /\ d <> ""
    /\ calls w' = calls w ++ [ToDataURL d]
    /\ viewState (state w') = Captured
    /\ videoRef w' = None.
Proof.
  intros Hrun Hv.
  destruct (refsFollowView_run encodeImage true evs w Hrun) as (HL & _ & cv & Hcv & Hctx).
  destruct (videoRef w) as [video|] eqn:Hvid; [|contradiction (HL Hv); reflexivity].
  eexists. eexists. split.
  - rewrite click_cases, Hv, handleTakePhoto_eq, Hvid, Hcv, Hctx. reflexivity.
  - cbn zeta. cbn [state calls videoRef setCapturedImage capturedImage].
    assert (Hne : toDataURL encodeImage "image/jpeg" (9 # 10)
                    (captureCanvas (facingMode (state w)) video true) <> "")
      by apply toDataURL_nonempty.
    pose proof (viewState_captured (state w) _ Hv Hne) as Hcap.
    repeat apply conj; try reflexivity; try assumption.
    apply reconcile_follows. rewrite Hcap. discriminate.
Qed.

Lemma shutter_always_captures_witness :
  exists w' d,
    step demoEncoder (after liveTrace) (Click ShutterButton) = Some w'
    /\ capturedImage (state w') = Some d
    /\ viewState (state w') = Captured.
Proof.
  destruct (shutter_always_captures demoEncoder liveTrace (after liveTrace))
    as (w' & d & Hs & Hd & _ & _ & Hv & _).
  - vm_compute. reflexivity.
  - vm_compute. reflexivity.
  - exists w', d. repeat apply conj; assumption.
Defined.

(** X11. Without a 2D context the component never captures: along every run
    [capturedImage] stays null, the view is never the captured one, and
    neither [toDataURL] nor [onPhotoTaken] is ever called. *)
Theorem no_context_no_still
    (encodeImage : string -> Q -> Bitmap -> string) (evs : list Event) (w : World) :
  run encodeImage (mount false) evs = Some w ->
  capturedImage (state w) = None
  /\ viewState (state w) <> Captured
  /\ (forall d, ~ In (ToDataURL d) (calls w))
  /\ (forall d, ~ In (OnPhotoTaken d) (calls w)).
Proof.
  intros Hrun.
  assert (H : refsFollowView false w /\ capturedImage (state w) = None /\ quiet (calls w)).
  { revert Hrun.
    apply (run_invariant encodeImage
             (fun w => refsFollowView false w /\ capturedImage (state w) = None
                       /\ quiet (calls w))).
    - intros w0 ev w1 (Hrefs & Hcap & Hq) Hs.
      split; [exact (refsFollowView_step encodeImage false w0 w1 ev Hrefs Hs)|].
      destruct Hrefs as (_ & _ & cv & Hcv & Hctx).
      step_cases Hs w0; cbn zeta; split_ifs;
        cbn [state calls call withCanvas withVideo withEnumerating settle withPending
             setCapturedImage setFacingMode setStream setError setHasMultipleCameras
             capturedImage];
        try congruence;
        try (rewrite Hcap in *; discriminate);
        (split; [first [assumption | reflexivity]|]);
        try assumption;
        try (apply quiet_app; [assumption | apply quiet_single; exact I]).
      all: repeat apply quiet_app; auto using quiet_stopTracks, quiet_single.
      all: apply quiet_single; exact I.
    - split; [apply refsFollowView_mount|]. split; [reflexivity|].
      intros c [<-|[<-|[]]]; exact I. }
  destruct H as (_ & Hcap & Hq). repeat apply conj.
  - exact Hcap.
  - rewrite viewState_cases, Hcap. cbn [truthy].
    destruct (truthy (error (state w))); discriminate.
  - intros d Hd. exact (Hq _ Hd).
  - intros d Hd. exact (Hq _ Hd).
Qed.

Lemma no_context_no_still_witness :
  match run demoEncoder (mount false) (liveTrace ++ [Click ShutterButton]) with
  | Some w => capturedImage (state w) = None
              /\ option_map width (canvasRef w) = Some 3
  | None => False
  end.
Proof.
  destruct (run demoEncoder (mount false) (liveTrace ++ [Click ShutterButton]))
    as [w|] eqn:Hrun.
  - split.
    + apply (no_context_no_still demoEncoder (liveTrace ++ [Click ShutterButton]) w Hrun).
    + vm_compute in Hrun. injection Hrun as <-. reflexivity.
  - vm_compute in Hrun. discriminate.
Defined.

(** X12. A capture of a video without size, zero width or zero height,
    stores exactly ["data:,"], for either facing mode and whatever the
    encoder: the canvas has no pixels and the encoder is not consulted. *)
Theorem zero_size_capture_is_empty
    (encodeImage : string -> Q -> Bitmap -> string)
    (w : World) (video : HTMLVideoElement) (canvas : HTMLCanvasElement) :
  videoRef w = Some video -> canvasRef w = Some canvas -> getContext canvas = true ->
  videoWidth video = 0 \/ videoHeight video = 0 ->
  capturedImage (state (handleTakePhoto encodeImage w)) = Some "data:,"
  /\ calls (handleTakePhoto encodeImage w) = calls w ++ [ToDataURL "data:,"].
Proof.
  intros Hv Hc Hx Hz.
  rewrite (handleTakePhoto_success encodeImage w video canvas Hv Hc Hx).
  cbn zeta. cbn [state calls setCapturedImage capturedImage].
  rewrite (toDataURL_without_pixels encodeImage _ _ _ _ _ Hz). split; reflexivity.
Qed.

Lemma zero_size_capture_is_empty_witness :
  capturedImage (state (handleTakePhoto demoEncoder (mount true))) = Some "data:,".
Proof.
  apply (zero_size_capture_is_empty demoEncoder (mount true) freshVideo (Canvas.fresh true)).
  - reflexivity.
  - reflexivity.
  - reflexivity.
  - left. reflexivity.
Defined.

(** X13. A capture does not depend on what the canvas held before: two
    captures of the same frame in the same facing mode leave the same canvas
    and store the same image, whatever size, matrix and pixels earlier
    captures left behind. *)
Theorem capture_ignores_canvas_history
    (encodeImage : string -> Q -> Bitmap -> string)
    (w1 w2 : World) (v1 v2 : HTMLVideoElement) (c1 c2 : HTMLCanvasElement) :
  videoRef w1 = Some v1 -> canvasRef w1 = Some c1 -> getContext c1 = true ->
  videoRef w2 = Some v2 -> canvasRef w2 = Some c2 -> getContext c2 = true ->
  facingMode (state w1) = facingMode (state w2) ->
  videoWidth v1 = videoWidth v2 -> videoHeight v1 = videoHeight v2 ->
  currentFrame v1 = currentFrame v2 ->
  canvasRef (handleTakePhoto encodeImage w1) = canvasRef (handleTakePhoto encodeImage w2)
  /\ capturedImage (state (handleTakePhoto encodeImage w1))
     = capturedImage (state (handleTakePhoto encodeImage w2)).
Proof.
  intros Hv1 Hc1 Hx1 Hv2 Hc2 Hx2 Hm Hw Hh Hf.
  rewrite (handleTakePhoto_success encodeImage w1 v1 c1 Hv1 Hc1 Hx1).
  rewrite (handleTakePhoto_success encodeImage w2 v2 c2 Hv2 Hc2 Hx2).
  cbn zeta. cbn [state canvasRef setCapturedImage capturedImage].
  rewrite Hm, (captureCanvas_same_frame (facingMode (state w2)) v1 v2 true Hw Hh Hf).
  split; reflexivity.
Qed.

Lemma capture_ignores_canvas_history_witness :
  capturedImage (state (handleTakePhoto demoEncoder (after liveTrace)))
  = capturedImage
      (state (handleTakePhoto demoEncoder
                (withCanvas (scale 2 3 (sized 7 5 true)) (after liveTrace)))).
Proof.
  apply (capture_ignores_canvas_history demoEncoder
           (after liveTrace)
           (withCanvas (scale 2 3 (sized 7 5 true)) (after liveTrace))
           demoVideo demoVideo (Canvas.fresh true) (scale 2 3 (sized 7 5 true)));
    vm_compute; reflexivity.
Defined.

Lemma map_nth_seq {A : Type} (l : list A) (d : A) :
  map (fun i => nth i l d) (seq 0 (List.length l)) = l.
Proof.
  induction l as [|x l IH]; [reflexivity|].
  cbn [List.length seq map nth]. f_equal.
  rewrite <- seq_shift, map_map. exact IH.
Qed.

Lemma rows_of_frame (frame : Bitmap) (w h : nat) :
  List.length frame = h -> Forall (fun row => List.length row = w) frame ->
  map (fun Y => map (fun X => sample frame X Y) (seq 0 w)) (seq 0 h) = frame.
Proof.
  intros Hh Hw. subst h.
  transitivity (map (fun Y => nth Y frame []) (seq 0 (List.length frame)));
    [|apply map_nth_seq].
  apply map_ext_in. intros Y HY. apply in_seq in HY. unfold sample.
  assert (Hrow : List.length (nth Y frame []) = w).
  { rewrite Forall_forall in Hw. apply Hw. apply nth_In. lia. }
  rewrite <- Hrow. apply map_nth_seq.
Qed.

Lemma blank_of_frame (frame : Bitmap) (w h : nat) :
  List.length frame = h -> Forall (fun row => List.length row = w) frame ->
  w = 0 \/ h = 0 -> blank w h = frame.
Proof.
  intros Hh Hw [-> | ->].
  - subst h. unfold blank. cbn [repeat].
    induction frame as [|row frame IH]; [reflexivity|].
    inversion Hw as [|? ? Hrow Hrest]; subst.
    apply length_zero_iff_nil in Hrow. subst row.
    cbn [List.length repeat]. f_equal. apply IH. exact Hrest.
  - apply length_zero_iff_nil in Hh. subst frame. reflexivity.
Qed.

(** X14. When the frame has the size the video reports, a back capture
    leaves on the canvas the frame itself, pixel for pixel, and a front
    capture its horizontal mirror. *)
Theorem capture_copies_frame
    (encodeImage : string -> Q -> Bitmap -> string)
    (w : World) (video : HTMLVideoElement) (canvas : HTMLCanvasElement) :
  videoRef w = Some video -> canvasRef w = Some canvas -> getContext canvas = true ->
  frameFits video ->
  exists cv,
    canvasRef (handleTakePhoto encodeImage w) = Some cv
    /\ bitmap cv = match facingMode (state w) with
                   | environment => currentFrame video
                   | user => mirror (currentFrame video)
                   end.
Proof.
  intros Hv Hc Hx [Hh Hw].
  rewrite (handleTakePhoto_success encodeImage w video canvas Hv Hc Hx).
  cbn zeta. cbn [canvasRef]. eexists. split; [reflexivity|].
  assert (Hback : bitmap (captureCanvas environment video true) = currentFrame video).
  { unfold captureCanvas, drawImage.
    destruct (Nat.eqb_spec (videoWidth video) 0) as [Hw0|Hw0]; cbn [orb].
    - cbn [bitmap sized]. apply blank_of_frame; auto.
    - destruct (Nat.eqb_spec (videoHeight video) 0) as [Hh0|Hh0].
      + cbn [bitmap sized]. apply blank_of_frame; auto.
      + cbn [bitmap width height ctm sized].
        transitivity (map (fun Y => map (fun X => sample (currentFrame video) X Y)
                                        (seq 0 (videoWidth video)))
                          (seq 0 (videoHeight video)));
          [|apply rows_of_frame; assumption].
        apply map_ext_in. intros Y HY. apply in_seq in HY.
        apply map_ext_in. intros X HX. apply in_seq in HX.
        apply drawPixel_identity; lia. }
  destruct (facingMode (state w)).
  - unfold captureCanvas at 1. rewrite drawImage_mirror.
    fold (captureCanvas environment video true). rewrite Hback. reflexivity.
  - exact Hback.
Qed.

Lemma capture_copies_frame_witness :
  exists cv,
    canvasRef (handleTakePhoto demoEncoder (after liveTrace)) = Some cv
    /\ bitmap cv = [[3; 2; 1]; [6; 5; 4]]%Z.
Proof.
  destruct (capture_copies_frame demoEncoder (after liveTrace) demoVideo
              (Canvas.fresh true)) as (cv & Hcv & Hb).
  - vm_compute. reflexivity.
  - vm_compute. reflexivity.
  - reflexivity.
  - split; [reflexivity|]. repeat constructor.
  - exists cv. split; [exact Hcv|]. rewrite Hb. vm_compute. reflexivity.
Defined.

(** *** Capture and retake together *)

Lemma reconcile_live (s : State) :
  viewState s = Live -> reconcileVideo s None = Some freshVideo.
Proof.
  unfold viewState, reconcileVideo. destruct (panel (render s)); try discriminate.
  reflexivity.
Qed.

Lemma setCapturedImage_back (s : State) (d : string) :
  capturedImage s = None ->
  setCapturedImage None (setCapturedImage (Some d) s) = s.
Proof. destruct s. cbn. intros ->. reflexivity. Qed.

(** X15. Capture followed by retake restores the component state: all five
    cells, the requests in flight and the kept cleanup are as before the
    capture, and the only trace in the call log is the [toDataURL] call.
    The video element is not restored: retake mounts a new one without a
    source. *)
Theorem capture_then_retake
    (encodeImage : string -> Q -> Bitmap -> string) (w w1 : World) (d : string) :
  reachable encodeImage w ->
  step encodeImage w (Click ShutterButton) = Some w1 ->
  capturedImage (state w1) = Some d ->
  exists w2,
    step encodeImage w1 (Click RetakeButton) = Some w2
    /\ state w2 = state w
    /\ calls w2 = calls w ++ [ToDataURL d]
    /\ pending w2 = pending w
    /\ cleanupStream w2 = cleanupStream w
    /\ videoRef w2 = Some freshVideo.
Proof.
  intros Hr Hs Hd. rewrite click_cases in Hs.
  destruct (viewState (state w)) eqn:Hv; try discriminate.
  injection Hs as <-.
  destruct (reachable_truthy encodeImage w Hr) as [_ Hc].
  assert (Hnone : capturedImage (state w) = None).
  { apply Hc. rewrite viewState_cases in Hv.
    destruct (truthy (error (state w))); [discriminate|].
    destruct (truthy (capturedImage (state w))); [discriminate | reflexivity]. }
  rewrite handleTakePhoto_eq in Hd |- *.
  destruct (videoRef w) as [video|]; [|congruence].
  destruct (canvasRef w) as [canvas|]; [|congruence].
  destruct (context2d canvas); [|cbn [withCanvas state] in Hd; congruence].
  cbn zeta in Hd |- *. cbn [state setCapturedImage capturedImage] in Hd.
  injection Hd as Hd.
  assert (Hne : d <> "") by (rewrite <- Hd; apply toDataURL_nonempty).
  rewrite Hd.
  pose proof (viewState_captured (state w) d Hv Hne) as Hcap.
  eexists. split.
  - rewrite click_cases. cbn [state]. rewrite Hcap. reflexivity.
  - rewrite handleRetake_eq.
    cbn [state calls pending cleanupStream videoRef].
    rewrite (setCapturedImage_back (state w) d Hnone).
    repeat apply conj; try reflexivity.
    assert (Hgone : reconcileVideo (setCapturedImage (Some d) (state w)) (Some video) = None).
    { apply reconcile_follows. rewrite Hcap. discriminate. }
    rewrite Hgone. apply reconcile_live. exact Hv.
Qed.

Lemma capture_then_retake_witness :
  exists w2,
    step demoEncoder (after (liveTrace ++ [Click ShutterButton])) (Click RetakeButton)
      = Some w2
    /\ state w2 = state (after liveTrace)
    /\ videoRef w2 = Some freshVideo.
Proof.
  destruct (capture_then_retake demoEncoder (after liveTrace)
              (after (liveTrace ++ [Click ShutterButton]))
              "data:image/jpeg;base64,DCB/GFE")
    as (w2 & Hs & Hst & _ & _ & _ & Hv).
  - apply reachable_after. vm_compute. discriminate.
  - vm_compute. reflexivity.
  - vm_compute. reflexivity.
  - exists w2. repeat apply conj; assumption.
Defined.

(** X16. A capture taken right after a retake, before a new stream is
    granted, is empty: the video element that retake mounted has no source
    and no size, so the shutter stores ["data:,"] although the stream is
    still held. *)
Theorem retake_then_capture_is_empty
    (encodeImage : string -> Q -> Bitmap -> string)
    (evs : list Event) (w w1 : World) :
  run encodeImage (mount true) evs = Some w ->
  step encodeImage w (Click RetakeButton) = Some w1 ->
  exists w2,
    step encodeImage w1 (Click ShutterButton) = Some w2
    /\ capturedImage (state w2) = Some "data:,"
    /\ stream (state w2) = stream (state w)
    /\ videoRef w1 = Some freshVideo.
Proof.
  intros Hrun Hs.
  destruct (refsFollowView_run encodeImage true evs w Hrun) as (_ & HN & cv & Hcv & Hctx).
  rewrite click_cases in Hs.
  destruct (viewState (state w)) eqn:Hv; try discriminate.
  injection Hs as <-.
  assert (Hnone : videoRef w = None) by (apply HN; discriminate).
  assert (Hlive : viewState (setCapturedImage None (state w)) = Live).
  { rewrite viewState_cases in Hv |- *. cbn [setCapturedImage error capturedImage truthy].
    destruct (truthy (error (state w))); [discriminate | reflexivity]. }
  rewrite handleRetake_eq, Hnone, (reconcile_live _ Hlive).
  eexists. split.
  - rewrite click_cases. cbn [state]. rewrite Hlive, handleTakePhoto_eq.
    cbn [videoRef canvasRef]. rewrite Hcv, Hctx. reflexivity.
  - cbn zeta. cbn [state setCapturedImage capturedImage stream].
    rewrite toDataURL_without_pixels by (left; reflexivity).
    repeat apply conj; reflexivity.
Qed.

Lemma retake_then_capture_is_empty_witness :
  exists w2,
    step demoEncoder (after (liveTrace ++ [Click ShutterButton; Click RetakeButton]))
         (Click ShutterButton) = Some w2
    /\ capturedImage (state w2) = Some "data:,"
    /\ stream (state w2) = Some frontStream.
Proof.
  destruct (retake_then_capture_is_empty demoEncoder
              (liveTrace ++ [Click ShutterButton])
              (after (liveTrace ++ [Click ShutterButton]))
              (after (liveTrace ++ [Click ShutterButton; Click RetakeButton])))
    as (w2 & Hs & Hd & Hst & _).
  - vm_compute. reflexivity.
  - vm_compute. reflexivity.
  - exists w2. split; [exact Hs|]. split; [exact Hd|]. rewrite Hst.
    vm_compute. reflexivity.
Defined.

(** *** The preview *)

(** X17. Along every run the video element either is as created, without
    source, size or frame, or has as its source the stream held in the
    [stream] cell: the preview never shows another stream. *)
Theorem preview_shows_held_stream
    (encodeImage : string -> Q -> Bitmap -> string) (w : World) (el : HTMLVideoElement) :
  reachable encodeImage w ->
  videoRef w = Some el ->
  match srcObject el with
  | Some s => stream (state w) = Some s
  | None => el = freshVideo
  end.
Proof.
  intros Hr. revert el. change (previewBound w).
  pattern w. apply (reachable_ind encodeImage); [ | | exact Hr]; clear w Hr.
  - intros has2d el Hel. cbn in Hel. injection Hel as <-. reflexivity.
  - intros w ev w' _ IH Hs.
    step_cases Hs w; cbn zeta; split_ifs; unfold previewBound;
      cbn [state videoRef call withCanvas withVideo withEnumerating settle withPending
           setCapturedImage setFacingMode setStream setError setHasMultipleCameras
           stream];
      intros node Hel;
      try (apply IH; assumption);
      try discriminate;
      try (apply reconcile_cases in Hel;
           destruct Hel as [Hel | [_ ->]]; [|reflexivity];
           first [ apply IH; congruence
                 | destruct (reconcileVideo _ (videoRef w)) eqn:Hrec; cbn in Hel;
                   [injection Hel as <-; reflexivity | discriminate] ]).
    injection Hel as <-. cbn [srcObject].
    match goal with
    | H1 : videoRef w = Some ?e, H2 : srcObject ?e = Some _ |- _ =>
        specialize (IH e H1); rewrite H2 in IH; exact IH
    end.
Qed.

Lemma preview_shows_held_stream_witness :
  exists el,
    videoRef (after liveTrace) = Some el
    /\ srcObject el = Some frontStream
    /\ stream (state (after liveTrace)) = Some frontStream.
Proof.
  exists demoVideo. split; [vm_compute; reflexivity|]. split; [reflexivity|].
  apply (preview_shows_held_stream demoEncoder (after liveTrace) demoVideo).
  - apply reachable_after. vm_compute. discriminate.
  - vm_compute. reflexivity.
Defined.

(** *** Rejections and late grants *)

Lemma reconcile_keep (s : State) (el : HTMLVideoElement) :
  viewState s = Live -> reconcileVideo s (Some el) = Some el.
Proof.
  unfold viewState, reconcileVideo. destruct (panel (render s)); try discriminate.
  reflexivity.
Qed.

(** X18. A rejection that is an [Error] always brings up the error view and
    detaches the video element, but discards nothing: the stream and the
    captured image stay in their cells.  The error view is not final: when
    another request in flight is granted afterwards, the error is cleared
    and the view is again what the other cells make it. *)
Theorem error_view_until_next_grant
    (encodeImage : string -> Q -> Bitmap -> string)
    (w w1 : World) (request : nat) (err : Rejection) :
  step encodeImage w (StreamRejected request err) = Some w1 ->
  instanceofError err = true ->
  viewState (state w1) = Error
  /\ videoRef w1 = None
  /\ stream (state w1) = stream (state w)
  /\ capturedImage (state w1) = capturedImage (state w)
  /\ (forall request' s w2,
        step encodeImage w1 (StreamGranted request' s) = Some w2 ->
        error (state w2) = None
        /\ capturedImage (state w2) = capturedImage (state w)
        /\ viewState (state w2) = viewState (setError None (state w))).
Proof.
  intros Hs Herr. cbn [step] in Hs. destruct (request <? _); [|discriminate].
  injection Hs as <-. rewrite onStreamError_eq, Herr. cbn zeta.
  cbn [state videoRef settle withPending setError stream capturedImage].
  assert (Hv : forall s, viewState
                 (setError (Some (if String.eqb (name err) "NotAllowedError"
                                  then permissionDeniedMessage
                                  else cameraUnavailableMessage)) s) = Error).
  { intros s. rewrite viewState_cases. cbn [setError error].
    destruct (String.eqb (name err) "NotAllowedError"); reflexivity. }
  repeat apply conj; try reflexivity.
  - apply Hv.
  - apply reconcile_follows. fold (setError (Some (if String.eqb (name err) "NotAllowedError"
                                  then permissionDeniedMessage
                                  else cameraUnavailableMessage)) (state w)).
    rewrite Hv. discriminate.
  - intros request' s w2 H. cbn [step] in H.
    destruct (request' <? _); [|discriminate].
    injection H as <-. rewrite onStream_eq. cbn zeta. cbn [state].
    repeat apply conj; try reflexivity.
Qed.

Lemma error_view_until_next_grant_witness :
  viewState (state (after [DevicesEnumerated twoCameras; Click SwitchCameraButton;
                           StreamRejected 0 {| instanceofError := true;
                                               name := "NotReadableError" |}]))
    = Error
  /\ viewState (state (after [DevicesEnumerated twoCameras; Click SwitchCameraButton;
                              StreamRejected 0 {| instanceofError := true;
                                                  name := "NotReadableError" |};
                              StreamGranted 0 backStream]))
     = Live.
Proof.
  destruct (error_view_until_next_grant demoEncoder
              (after [DevicesEnumerated twoCameras; Click SwitchCameraButton])
              (after [DevicesEnumerated twoCameras; Click SwitchCameraButton;
                      StreamRejected 0 {| instanceofError := true;
                                          name := "NotReadableError" |}])
              0 {| instanceofError := true; name := "NotReadableError" |})
    as (Hv & _ & _ & _ & Hgrant).
  - vm_compute. reflexivity.
  - reflexivity.
  - split; [exact Hv|].
    destruct (Hgrant 0 backStream
                (after [DevicesEnumerated twoCameras; Click SwitchCameraButton;
                        StreamRejected 0 {| instanceofError := true;
                                            name := "NotReadableError" |};
                        StreamGranted 0 backStream])) as (_ & _ & Hlive).
    + vm_compute. reflexivity.
    + rewrite Hlive. vm_compute. reflexivity.
Defined.

(** X19. A granted stream is bound to the video element only if the live
    view is showing at that moment.  In the live view the element gets the
    stream as source and starts anew, without size or frame, until the
    stream delivers one; in the captured view there is no element to bind;
    granted in the error view with no still held, the stream is stored and
    the live view returns with a new element that has no source. *)
Theorem grant_binds_only_live_preview
    (encodeImage : string -> Q -> Bitmap -> string)
    (has2d : bool) (evs : list Event) (w w' : World) (request : nat) (s : MediaStream) :
  run encodeImage (mount has2d) evs = Some w ->
  step encodeImage w (StreamGranted request s) = Some w' ->
  stream (state w') = Some s
  /\ (viewState (state w) = Live ->
      videoRef w <> None
      /\ videoRef w' = Some {| srcObject := Some s; videoWidth := 0;
                               videoHeight := 0; currentFrame := [] |})
  /\ (viewState (state w) = Captured -> videoRef w' = None)
  /\ (viewState (state w) = Error -> truthy (capturedImage (state w)) = false ->
      viewState (state w') = Live /\ videoRef w' = Some freshVideo).
Proof.
  intros Hrun Hs.
  destruct (refsFollowView_run encodeImage has2d evs w Hrun) as (HL & HN & _).
  cbn [step] in Hs. destruct (request <? _); [|discriminate].
  injection Hs as <-. rewrite onStream_eq. cbn zeta.
  cbn [state videoRef settle withPending setError setStream stream].
  assert (H1 : viewState (setStream (Some s) (state w)) = viewState (state w))
    by (apply viewState_same_display; reflexivity).
  split; [reflexivity|]. split; [|split].
  - intros Hv. destruct (videoRef w) as [el|] eqn:Hel; [|contradiction (HL Hv); reflexivity].
    split; [discriminate|].
    rewrite (reconcile_keep _ el) by (rewrite H1; exact Hv). cbn [option_map].
    apply reconcile_keep.
    rewrite viewState_cases in Hv |- *. cbn [setError setStream error capturedImage truthy].
    destruct (truthy (error (state w))); [discriminate | exact Hv].
  - intros Hv. apply reconcile_follows.
    rewrite viewState_cases in Hv |- *. cbn [setError setStream error capturedImage truthy].
    destruct (truthy (error (state w))); [discriminate|].
    destruct (truthy (capturedImage (state w))); discriminate.
  - intros Hv Hc.
    assert (Hlive : viewState (setError None (setStream (Some s) (state w))) = Live).
    { rewrite viewState_cases. cbn [setError setStream error capturedImage truthy].
      rewrite Hc. reflexivity. }
    split; [exact Hlive|].
    rewrite (HN ltac:(rewrite Hv; discriminate)).
    assert (Hgone : reconcileVideo (setStream (Some s) (state w)) None = None)
      by (apply reconcile_follows; rewrite H1, Hv; discriminate).
    rewrite Hgone. cbn [option_map]. apply reconcile_live. exact Hlive.
Qed.

Lemma grant_binds_only_live_preview_witness :
  videoRef (after (liveTrace ++ [Click SwitchCameraButton; StreamGranted 0 backStream]))
    = Some {| srcObject := Some backStream; videoWidth := 0;
              videoHeight := 0; currentFrame := [] |}
  /\ videoRef (after [DevicesEnumerated twoCameras; Click SwitchCameraButton;
                      StreamRejected 0 {| instanceofError := true;
                                          name := "NotReadableError" |};
                      StreamGranted 0 backStream])
     = Some freshVideo.
Proof.
  split.
  - apply (grant_binds_only_live_preview demoEncoder true
             (liveTrace ++ [Click SwitchCameraButton])
             (after (liveTrace ++ [Click SwitchCameraButton]))
             (after (liveTrace ++ [Click SwitchCameraButton; StreamGranted 0 backStream]))
             0 backStream); vm_compute; reflexivity.
  - apply (grant_binds_only_live_preview demoEncoder true
             [DevicesEnumerated twoCameras; Click SwitchCameraButton;
              StreamRejected 0 {| instanceofError := true; name := "NotReadableError" |}]
             (after [DevicesEnumerated twoCameras; Click SwitchCameraButton;
                     StreamRejected 0 {| instanceofError := true;
                                         name := "NotReadableError" |}])
             (after [DevicesEnumerated twoCameras; Click SwitchCameraButton;
                     StreamRejected 0 {| instanceofError := true;
                                         name := "NotReadableError" |};
                     StreamGranted 0 backStream])
             0 backStream); vm_compute; reflexivity.
Defined.
